(** * LocalSymbolSearch: the symbol-search island of the package pages

    A shallow embedding of [frontend/routes/package/(_islands)/LocalSymbolSearch.tsx]
    (the flat variant, with a result list and keyboard selection) and of its
    sibling revision that filters whole sections (the sectioned variant).

    Conventions of the embedding
    - a JS string is a [string] of bytes, its text in UTF-8: a character of
      ASCII is the byte of its code, every other character is a run of bytes
      from 128 up, so that a byte in [[A-Z]] is always the letter itself and
      a cut before it falls where the cut between code units falls.  On a
      string of ASCII characters [toLowerCase] is computed; on any other
      string it is the case mapping of the engine, a Section variable;
    - a parsed document is in quirks mode or not, as its text has no doctype
      or has one, and class names are compared as that mode makes
      [getElementsByClassName] compare them;
    - the parsed document is the table of its elements in tree order, each
      element carrying the number of its descendants, so that
      [getElementsByClassName] is a filter over a range of the table and a
      style mutation is an update in place;
    - signals are the fields of [State]; collaborators that live outside the
      component (the generic tokenizer, [DOMParser], Orama's [search], the
      [api.get] response) are Section variables. *)

From Stdlib Require Import ZArith Ascii String Bool Lia.
From stdpp Require Import base list strings.

Local Open Scope Z_scope.
Local Open Scope nat_scope.

(** ** JS string primitives *)

(** The character class [[A-Z]]. *)
Definition isAZ (c : ascii) : bool :=
  let n := nat_of_ascii c in (65 <=? n) && (n <=? 90).

Definition toLowerCase_char (c : ascii) : ascii :=
  if isAZ c then ascii_of_nat (nat_of_ascii c + 32) else c.

(** ASCII lowercasing: the letters of [[A-Z]] become those of [[a-z]], every
    other byte stays.  It is what [toLowerCase] does to a string of ASCII
    characters, and what an ASCII case-insensitive comparison folds with. *)
Fixpoint ascii_toLowerCase (s : string) : string :=
  match s with
  | EmptyString => EmptyString
  | String c s' => String (toLowerCase_char c) (ascii_toLowerCase s')
  end.

(** Whether every character of a string is one of ASCII. *)
Definition is_ascii_char (c : ascii) : bool := nat_of_ascii c <? 128.

Fixpoint is_ascii (s : string) : bool :=
  match s with
  | EmptyString => true
  | String c s' => is_ascii_char c && is_ascii s'
  end.

(** The sticky match of [/(?=[A-Z])/] at index [q]: it succeeds exactly when
    the character at [q] is in [[A-Z]], and it consumes nothing. *)
Definition lookahead_AZ (str : string) (q : nat) : bool :=
  match String.get q str with
  | Some c => isAZ c
  | None => false
  end.

(** The loop of [RegExp.prototype[Symbol.split]] (ECMAScript 22.2.6.14,
    steps 17-20) for the splitter [/(?=[A-Z])/], no limit, no capture groups.
    [p] is the start of the piece being scanned, [q] the scanning position,
    [A] the pieces pushed so far.  A match at [q] ends at [e = q]. *)
Fixpoint SplitLoop (fuel : nat) (str : string) (p q : nat) (A : list string)
  : list string :=
  match fuel with
  | O => A
  | S fuel' =>
      if q <? String.length str then
        if lookahead_AZ str q then
          let e := q in
          if e =? p then SplitLoop fuel' str p (q + 1) A
          else SplitLoop fuel' str e e (A ++ [String.substring p (q - p) str])
        else SplitLoop fuel' str p (q + 1) A
      else A ++ [String.substring p (String.length str - p) str]
  end.

(** [raw.split(/(?=[A-Z])/)].  On the empty string the splitter is tried
    once; the lookahead needs a character, so it fails and the result is the
    one-element array holding the empty string.  Every pass through the loop
    either advances [q] or, at most once per position, moves [p] up to [q]:
    [2 * size + 1] passes are enough (see [SplitLoop_pieces]). *)
Definition split_AZ (str : string) : list string :=
  if String.length str =? 0 then
    (if lookahead_AZ str 0 then [] else [str])
  else SplitLoop (2 * String.length str + 1) str 0 0 [].

(** ** The tokenizer handed to Orama *)

Section Tokenizer.
(** The engine's [String.prototype.toLowerCase] on the strings that hold a
    character beyond ASCII: the Unicode case mapping, with its rules that
    look at the neighbouring characters and may change the length. *)
Variable unicode_toLowerCase : string -> string.

(** [String.prototype.toLowerCase]. *)
Definition toLowerCase (s : string) : string :=
  if is_ascii s then ascii_toLowerCase s else unicode_toLowerCase s.

(** [tokenizer.tokenize], the tokenizer made by
    [components.tokenizer.createTokenizer()]. *)
Variable default_tokenize : string -> option string -> option string -> list string.

Definition tokenize (raw : string) (lang prop : option string) : list string :=
  if bool_decide (prop = Some "name"%string) then
    map toLowerCase (split_AZ raw)
  else default_tokenize raw lang prop.
End Tokenizer.

Definition nonempty (s : string) : bool :=
  match s with EmptyString => false | String _ _ => true end.

(** Whether a string starts with a letter of [[A-Z]]. *)
Definition starts_AZ (s : string) : bool :=
  match s with
  | EmptyString => false
  | String c _ => isAZ c
  end.

(** Whether a string starts with an uppercase letter of ASCII or of the
    Latin-1 supplement (the letters from [U+00C0] to [U+00DE] but the
    multiplication sign; in UTF-8 the byte 195 and then a byte from 128 to
    158 other than 151). *)
Definition starts_uppercase (s : string) : bool :=
  match s with
  | EmptyString => false
  | String c rest =>
      isAZ c
      || (Nat.eqb (nat_of_ascii c) 195
          && match rest with
             | EmptyString => false
             | String d _ =>
                 let n := nat_of_ascii d in
                 (128 <=? n) && (n <=? 158) && negb (Nat.eqb n 151)
             end)
  end.

(** The tokenizer as section 4.2 of the specification words it: cut [raw]
    at every position immediately preceding an uppercase letter ([upper]
    tells whether the text from a position on starts with one) ... *)
Fixpoint spec_cut (upper : string -> bool) (raw : string) : list string :=
  match raw with
  | EmptyString => [EmptyString]
  | String c rest =>
      match spec_cut upper rest with
      | piece :: pieces =>
          if upper raw then EmptyString :: String c piece :: pieces
          else String c piece :: pieces
      | [] => [String c EmptyString]
      end
  end.

(** ... lowercase each resulting piece, and drop empty pieces. *)
Definition spec_tokenize (upper : string -> bool)
    (unicode_toLowerCase : string -> string) (raw : string) : list string :=
  List.filter nonempty
    (map (toLowerCase unicode_toLowerCase) (spec_cut upper raw)).

(** A case mapping that gives no non-empty string an empty image.  The
    engine's is one: no character has an empty lowercase form. *)
Definition keeps_nonempty (f : string -> string) : Prop :=
  forall s : string, nonempty s = true -> nonempty (f s) = true.

(** A case mapping for the examples: it lowers the letters of ASCII and of
    the Latin-1 supplement in a UTF-8 text and keeps every other byte. *)
Fixpoint latin1_toLowerCase (s : string) : string :=
  match s with
  | EmptyString => EmptyString
  | String c rest =>
      if Nat.eqb (nat_of_ascii c) 195 then
        match rest with
        | EmptyString => String c EmptyString
        | String d rest' =>
            let n := nat_of_ascii d in
            if (128 <=? n) && (n <=? 158) && negb (Nat.eqb n 151)
            then String c (String (ascii_of_nat (n + 32))
                                  (latin1_toLowerCase rest'))
            else String c (String d (latin1_toLowerCase rest'))
        end
      else String (toLowerCase_char c) (latin1_toLowerCase rest)
  end.

(** The pieces [split_AZ] produces, by recursion on the text still to scan:
    [cur] is the piece being scanned, [rest] the text from the scanning
    position on. *)
Fixpoint pieces (cur rest : string) : list string :=
  match rest with
  | EmptyString => [cur]
  | String c rest' =>
      if isAZ c then
        (if nonempty cur then cur :: pieces (String c EmptyString) rest'
         else pieces (String c EmptyString) rest')
      else pieces (cur +:+ String c EmptyString) rest'
  end.

(** [cur] glued in front of the first cut. *)
Definition prepend (cur : string) (cuts : list string) : list string :=
  match cuts with
  | first :: others => (cur +:+ first) :: others
  | [] => [cur]
  end.


(** ** The parsed document *)

(** An element of the parsed document, as far as the component looks at it:
    its [class] attribute, its [data-name] attribute ([dataset.name],
    [undefined] when absent), the [display] property of its inline style,
    the number of elements below it, and whether its node document is in
    quirks mode.  The parser gives one mode to the whole document: quirks
    mode to a text without a doctype, as a fragment of markup is. *)
Record Element := {
  classList : list string;
  dataset_name : option string;
  style_display : option string;
  descendants : nat;
  quirks : bool
}.

(** A document is the table of its elements in tree order: the descendants
    of the element at index [i] sit at [i+1 .. i + descendants]. *)
Abbreviation Document := (list Element).

(** The same document as a tree, and its table. *)
Local Unset Elimination Schemes.
Inductive Html :=
  Tag (classes : list string) (data_name : option string)
      (display : option string) (children : list Html).
Local Set Elimination Schemes.

Fixpoint elements_of (mode : bool) (h : Html) : Document :=
  match h with
  | Tag classes data_name display children =>
      let below :=
        (fix go (l : list Html) : Document :=
           match l with
           | [] => []
           | child :: l' => elements_of mode child ++ go l'
           end) children in
      {| classList := classes; dataset_name := data_name;
         style_display := display; descendants := length below;
         quirks := mode |} :: below
  end.

(** The document of a text with the elements [body], in quirks mode or
    not. *)
Definition document_of (mode : bool) (body : list Html) : Document :=
  flat_map (elements_of mode) body.

Definition with_display (v : option string) (e : Element) : Element :=
  {| classList := classList e; dataset_name := dataset_name e;
     style_display := v; descendants := descendants e;
     quirks := quirks e |}.

(** [style.setProperty("display", v)] and [style.removeProperty("display")]. *)
Definition setProperty_display (v : string) : Element -> Element :=
  with_display (Some v).
Definition removeProperty_display : Element -> Element :=
  with_display None.

(** An element is hidden when its own style says [display: none]. *)
Definition hidden (e : Element) : bool :=
  bool_decide (style_display e = Some "none"%string).
Definition visible (e : Element) : bool := negb (hidden e).

(** Whether two class names are an ASCII case-insensitive match. *)
Definition ascii_case_insensitive_match (a b : string) : bool :=
  bool_decide (ascii_toLowerCase a = ascii_toLowerCase b).

(** Whether [getElementsByClassName(c)], for a single class name [c], takes
    the element: one of its classes is [c], compared ASCII case-insensitively
    in a document in quirks mode and character by character in any other. *)
Definition hasClass (c : string) (e : Element) : bool :=
  if quirks e then existsb (ascii_case_insensitive_match c) (classList e)
  else bool_decide (c ∈ classList e).

Definition has_class_at (doc : Document) (c : string) (i : nat) : bool :=
  match doc !! i with
  | Some e => hasClass c e
  | None => false
  end.

Definition name_at (doc : Document) (i : nat) : option string :=
  match doc !! i with
  | Some e => dataset_name e
  | None => None
  end.

Definition descendants_at (doc : Document) (i : nat) : nat :=
  match doc !! i with
  | Some e => descendants e
  | None => 0
  end.

(** [doc.getElementsByClassName(c)]: the indices of the elements it takes
    for the class [c], in tree order.  The collection is live, but no handler changes a
    class attribute, so it is the same list throughout a loop. *)
Definition getElementsByClassName (doc : Document) (c : string) : list nat :=
  List.filter (has_class_at doc c) (seq 0 (length doc)).

(** [element.getElementsByClassName(c)] for the element at index [i]: only
    its descendants are searched. *)
Definition getElementsByClassName_in (doc : Document) (i : nat) (c : string)
  : list nat :=
  List.filter (has_class_at doc c) (seq (S i) (descendants_at doc i)).

(** The elements shown, by index. *)
Definition visibleSet (doc : Document) : list nat :=
  List.filter (fun i => match doc !! i with
                        | Some e => visible e
                        | None => false
                        end) (seq 0 (length doc)).

(** [results.includes(searchItem.dataset.name)] for [results : string[]]:
    an absent attribute is [undefined], which no array of strings includes. *)
Definition includes (results : list string) (x : option string) : bool :=
  match x with
  | Some n => bool_decide (n ∈ results)
  | None => false
  end.

(** ** Records, props and signals *)

Inductive Kind :=
  | class | enum | function | interface | namespace | typeAlias | variable.

Record Location := { filename : string; line : nat; col : nat }.

Record SearchRecord := {
  name : string;
  kind : list Kind;
  file : string;
  location : Location
}.

Record LocalSymbolSearchProps := {
  scope : string;
  pkg : string;
  version : string;
  content : option string
}.

(** The Orama database, as far as the component drives it: the documents
    inserted so far, each [{ name: searchItem.dataset.name }]. *)
Record Orama := { documents : list (option string) }.

Definition create : Orama := {| documents := [] |}.
Definition insertMultiple (oramaDb : Orama) (searchItems : list (option string))
  : Orama :=
  {| documents := documents oramaDb ++ searchItems |}.

(** The GET request of the mount effect,
    [/scopes/${scope}/packages/${pkg}/versions/${version || "latest"}/docs/search]. *)
Record Request := { req_scope : string; req_pkg : string; req_version : string }.

(** The response envelope of [api.get]: [{ ok: true, data }] or a failure. *)
Inductive APIResponse :=
  | APIResponseOk (data : string)
  | APIResponseError (err : string).

Definition ok (resp : APIResponse) : bool :=
  match resp with APIResponseOk _ => true | APIResponseError _ => false end.

(** The signals of the component, and what it does to the world around it.
    [results] is a signal of the flat variant only, [searchCounter] of the
    sectioned variant only. *)
Record State := {
  db : option Orama;
  results : list SearchRecord;
  selectionIdx : Z;
  parsedSearchContent : option Document;
  showResults : bool;
  searchCounter : nat;
  console_error : list APIResponse;
  requests : list Request;
  location_href : option string
}.

Definition set_db (v : option Orama) (st : State) : State :=
  {| db := v; results := results st; selectionIdx := selectionIdx st;
     parsedSearchContent := parsedSearchContent st;
     showResults := showResults st; searchCounter := searchCounter st;
     console_error := console_error st; requests := requests st;
     location_href := location_href st |}.

Definition set_results (v : list SearchRecord) (st : State) : State :=
  {| db := db st; results := v; selectionIdx := selectionIdx st;
     parsedSearchContent := parsedSearchContent st;
     showResults := showResults st; searchCounter := searchCounter st;
     console_error := console_error st; requests := requests st;
     location_href := location_href st |}.

Definition set_selectionIdx (v : Z) (st : State) : State :=
  {| db := db st; results := results st; selectionIdx := v;
     parsedSearchContent := parsedSearchContent st;
     showResults := showResults st; searchCounter := searchCounter st;
     console_error := console_error st; requests := requests st;
     location_href := location_href st |}.

Definition set_parsedSearchContent (v : option Document) (st : State) : State :=
  {| db := db st; results := results st; selectionIdx := selectionIdx st;
     parsedSearchContent := v;
     showResults := showResults st; searchCounter := searchCounter st;
     console_error := console_error st; requests := requests st;
     location_href := location_href st |}.

Definition set_showResults (v : bool) (st : State) : State :=
  {| db := db st; results := results st; selectionIdx := selectionIdx st;
     parsedSearchContent := parsedSearchContent st;
     showResults := v; searchCounter := searchCounter st;
     console_error := console_error st; requests := requests st;
     location_href := location_href st |}.

Definition set_searchCounter (v : nat) (st : State) : State :=
  {| db := db st; results := results st; selectionIdx := selectionIdx st;
     parsedSearchContent := parsedSearchContent st;
     showResults := showResults st; searchCounter := v;
     console_error := console_error st; requests := requests st;
     location_href := location_href st |}.

Definition log_error (resp : APIResponse) (st : State) : State :=
  {| db := db st; results := results st; selectionIdx := selectionIdx st;
     parsedSearchContent := parsedSearchContent st;
     showResults := showResults st; searchCounter := searchCounter st;
     console_error := console_error st ++ [resp]; requests := requests st;
     location_href := location_href st |}.

Definition send (rq : Request) (st : State) : State :=
  {| db := db st; results := results st; selectionIdx := selectionIdx st;
     parsedSearchContent := parsedSearchContent st;
     showResults := showResults st; searchCounter := searchCounter st;
     console_error := console_error st; requests := requests st ++ [rq];
     location_href := location_href st |}.

Definition navigate (url : string) (st : State) : State :=
  {| db := db st; results := results st; selectionIdx := selectionIdx st;
     parsedSearchContent := parsedSearchContent st;
     showResults := showResults st; searchCounter := searchCounter st;
     console_error := console_error st; requests := requests st;
     location_href := Some url |}.

(** JS truthiness of a string, and of an optional one. *)
Definition truthy (s : string) : bool := nonempty s.
Definition truthy_opt (s : option string) : bool :=
  match s with Some s => truthy s | None => false end.

(** ** Mounting: the first effect *)

Section Mount.
(** The collaborators: the server behind [api.get], and [DOMParser], whose
    [parseFromString(_, "text/html")] gives the elements of the document and
    the mode it is in. *)
Variable api_get : Request -> APIResponse.
Variable parseFromString : string -> Document.
Variable props : LocalSymbolSearchProps.

Definition search_request : Request :=
  {| req_scope := scope props; req_pkg := pkg props;
     req_version := if truthy (version props) then version props
                    else "latest"%string |}.

(** Everything after the point where the content is known. *)
Definition publish (oramaDb : Orama) (searchContent : string) (st : State)
  : State :=
  let searchDocument := parseFromString searchContent in
  let st := set_parsedSearchContent (Some searchDocument) st in
  let searchItems :=
    map (name_at searchDocument)
        (getElementsByClassName searchDocument "namespaceItem") in
  let oramaDb := insertMultiple oramaDb searchItems in
  set_db (Some oramaDb) st.

(** The body of the effect, run once ([useEffect(..., [])]).  The database
    is created while the request, if any, is under way; both are awaited
    together.  A response that is not ok is logged and the effect returns;
    without a request the content is the (non-empty) prop. *)
Definition mount (st : State) : State :=
  let oramaDb := create in
  if negb (truthy_opt (content props)) then
    let st := send search_request st in
    let searchResp := api_get search_request in
    match searchResp with
    | APIResponseOk data => publish oramaDb data st
    | APIResponseError _ => log_error searchResp st
    end
  else publish oramaDb (default ""%string (content props)) st.
End Mount.

(** ** Rendering: the [disabled] attribute of the input *)

(** JS values, as far as [ToBoolean] tells them apart. *)
Inductive JsValue := JsUndefined | JsObject.

Definition ToBoolean (v : JsValue) : bool :=
  match v with JsUndefined => false | JsObject => true end.

(** The identifier [db] denotes the signal, an object, whatever it holds;
    [db.value] is the database or [undefined]. *)
Definition db_signal (st : State) : JsValue := JsObject.
Definition db_value (st : State) : JsValue :=
  match db st with Some _ => JsObject | None => JsUndefined end.

(** [disabled={!db}]. *)
Definition input_disabled (st : State) : bool := negb (ToBoolean (db_signal st)).

(** The index can be queried once [db.value] holds it. *)
Definition queryable (st : State) : bool := ToBoolean (db_value st).

(** ** The flat variant: LocalSymbolSearch.tsx *)

Module Flat.

Definition initial : State :=
  {| db := None; results := []; selectionIdx := (-1)%Z;
     parsedSearchContent := None; showResults := true; searchCounter := 0;
     console_error := []; requests := []; location_href := None |}.

(** The body of the loop over the namespace items. *)
Definition show_or_hide (results : list string) (searchItem : Element)
  : Element :=
  if includes results (dataset_name searchItem)
  then removeProperty_display searchItem
  else setProperty_display "none" searchItem.

(** The reconciling loop of [onInput]. *)
Definition reconcile (results : list string) (doc : Document) : Document :=
  foldl (fun doc searchItem => alter (show_or_hide results) searchItem doc)
        doc (getElementsByClassName doc "namespaceItem").

Section Handlers.
(** Orama's [search] with [properties: ["name"], threshold: 0.4]: the
    documents of the hits, in order. *)
Variable search : Orama -> string -> list SearchRecord.
Variable props : LocalSymbolSearchProps.

(** [onInput], taken as one step from the event to the end of its body.
    Inside the first branch [let results: string[]] shadows the signal, so
    the closing [results.value = ...] writes a property of that local array
    and the signal keeps its value.  Without a database ([db.value]
    undefined) [search] rejects and nothing after the [await] runs; without a
    document the loop throws after the selection was reset. *)
Definition onInput (value : string) (st : State) : State :=
  if truthy value then
    match db st with
    | None => st
    | Some oramaDb =>
        let searchResult := search oramaDb value in
        let st := set_selectionIdx (-1)%Z st in
        let results := map name searchResult in
        match parsedSearchContent st with
        | None => st
        | Some doc =>
            set_parsedSearchContent (Some (reconcile results doc)) st
        end
    end
  else set_results [] st.

Definition item_url (item : SearchRecord) : string :=
  "/@" +:+ scope props +:+ "/" +:+ pkg props
  +:+ (if truthy (version props) then "@" +:+ version props else "")
  +:+ "/doc"
  +:+ (if bool_decide (file item = "."%string) then ""%string else file item)
  +:+ "/~/" +:+ name item.

(** [onKeyUp]: the new state, and whether [e.preventDefault()] was
    called. *)
Definition onKeyUp (key : string) (st : State) : State * bool :=
  if bool_decide (key = "ArrowDown"%string) then
    (set_selectionIdx
       (Z.min (Z.of_nat (length (results st)) - 1) (selectionIdx st + 1)) st,
     false)
  else if bool_decide (key = "ArrowUp"%string) then
    (set_selectionIdx (Z.max 0 (selectionIdx st - 1)) st, false)
  else if bool_decide (key = "Enter"%string) then
    if (-1 <? selectionIdx st)%Z then
      match results st !! Z.to_nat (selectionIdx st) with
      | Some item => (navigate (item_url item) st, true)
      | None => (st, false)
      end
    else (st, false)
  else (st, false).

(** The click listener on the document: [showResults] follows whether the
    click landed inside the widget. *)
Definition outsideClick (inside : bool) (st : State) : State :=
  set_showResults inside st.

Inductive Event :=
  | Input (value : string)
  | KeyUp (key : string)
  | Click (inside : bool).

Definition handle (st : State) (ev : Event) : State :=
  match ev with
  | Input value => onInput value st
  | KeyUp key => fst (onKeyUp key st)
  | Click inside => outsideClick inside st
  end.

Definition run (evs : list Event) (st : State) : State :=
  foldl handle st evs.
End Handlers.

End Flat.

(** ** The sectioned variant *)

Module Sectioned.

Definition initial : State :=
  {| db := None; results := []; selectionIdx := (-1)%Z;
     parsedSearchContent := None; showResults := false; searchCounter := 0;
     console_error := []; requests := []; location_href := None |}.

(** The inner loop, over the namespace items of one section: the document
    and the running [hiddenItems]. *)
Definition items_loop (results : list string) (items : list nat)
    (doc : Document) : Document * nat :=
  foldl (fun '(doc, hiddenItems) searchItem =>
           if includes results (name_at doc searchItem)
           then (alter removeProperty_display searchItem doc, hiddenItems)
           else (alter (setProperty_display "none") searchItem doc,
                 S hiddenItems))
        (doc, 0) items.

(** The body of the outer loop, for the section at index [entrypoints]. *)
Definition section_step (results : list string) (doc : Document)
    (entrypoints : nat) : Document :=
  let items := getElementsByClassName_in doc entrypoints "namespaceItem" in
  let '(doc, hiddenItems) := items_loop results items doc in
  if hiddenItems =? length items
  then alter (setProperty_display "none") entrypoints doc
  else alter removeProperty_display entrypoints doc.

(** The reconciling loops of [onInput]. *)
Definition reconcile (results : list string) (doc : Document) : Document :=
  foldl (section_step results) doc (getElementsByClassName doc "section").

Section Handlers.
Variable search : Orama -> string -> list SearchRecord.

Definition onInput (value : string) (st : State) : State :=
  if truthy value then
    match db st with
    | None => st
    | Some oramaDb =>
        let searchResult := search oramaDb value in
        let st := set_selectionIdx (-1)%Z st in
        let results := map name searchResult in
        match parsedSearchContent st with
        | None => st
        | Some doc =>
            let st :=
              set_parsedSearchContent (Some (reconcile results doc)) st in
            let st := set_searchCounter (searchCounter st + 1) st in
            set_showResults true st
        end
    end
  else set_showResults false st.

(** [onKeyUp]: its body is commented out. *)
Definition onKeyUp (key : string) (st : State) : State * bool :=
  (st, false).

Inductive Event :=
  | Input (value : string)
  | KeyUp (key : string).

Definition handle (st : State) (ev : Event) : State :=
  match ev with
  | Input value => onInput value st
  | KeyUp key => fst (onKeyUp key st)
  end.

Definition run (evs : list Event) (st : State) : State :=
  foldl handle st evs.
End Handlers.

End Sectioned.

(** ** What the loops compute, element by element *)

(** The display a namespace item ends up with. *)
Definition item_display (results : list string) (e : Element) : option string :=
  if includes results (dataset_name e) then None else Some "none"%string.

(** The number of namespace items below [i] whose name is not among the
    results, and the display the section at [i] ends up with. *)
Definition hidden_below (results : list string) (doc : Document) (i : nat)
  : nat :=
  length (List.filter (fun j => negb (includes results (name_at doc j)))
                      (getElementsByClassName_in doc i "namespaceItem")).

Definition section_display (results : list string) (doc : Document) (i : nat)
  : option string :=
  if hidden_below results doc i
     =? length (getElementsByClassName_in doc i "namespaceItem")
  then Some "none"%string else None.

(** [j] lies below a section whose index is less than [k]. *)
Definition under_section (doc : Document) (k j : nat) : bool :=
  existsb (fun a => has_class_at doc "section" a
                    && (a <? j) && (j <=? a + descendants_at doc a))
          (seq 0 k).

(** The element at [j] once the sections of index below [k] are done. *)
Definition settled (results : list string) (doc : Document) (k j : nat)
    (e : Element) : Element :=
  if has_class_at doc "section" j && (j <? k)
  then with_display (section_display results doc j) e
  else if has_class_at doc "namespaceItem" j && under_section doc k j
  then with_display (item_display results e) e
  else e.

(** The markup of an element: everything but the style. *)
Definition markup (e : Element) : Element := with_display None e.

(** The URL of section 4.5 of the specification:
    [/@{scope}/{pkg}[@{version}]/doc{file == "." ? "" : file}/~/{name}], the
    [@{version}] segment present only for a non-empty version. *)
Definition spec_url (scope pkg version file name : string) : string :=
  "/@" +:+ scope +:+ "/" +:+ pkg
  +:+ (if bool_decide (version = ""%string) then ""%string else "@" +:+ version)
  +:+ "/doc"
  +:+ (if bool_decide (file = "."%string) then ""%string else file)
  +:+ "/~/" +:+ name.

(** The range the specification gives the selection,
    [[-1, resultRecords.length - 1]]. *)
Definition selection_in_range (st : State) : Prop :=
  (-1 <= selectionIdx st <= Z.of_nat (length (results st)) - 1)%Z.

(** Sample values for the examples. *)
Definition sample_props : LocalSymbolSearchProps :=
  {| scope := "std"; pkg := "fs"; version := "1.0.0"; content := None |}.

Definition sample_record (file name : string) : SearchRecord :=
  {| name := name; kind := [function]; file := file;
     location := {| filename := file; line := 1; col := 0 |} |}.

Definition three_results : State :=
  set_results [sample_record "." "walk"; sample_record "/mod.ts" "copy";
               sample_record "/mod.ts" "exists"] Flat.initial.

Definition no_hits : Orama -> string -> list SearchRecord := fun _ _ => [].

Definition failing_api : Request -> APIResponse :=
  fun _ => APIResponseError "500".

Definition no_elements : string -> Document := fun _ => [].

(** Two documents with the same markup: they differ in styles only. *)
Definition same_markup (d doc : Document) : Prop :=
  markup <$> d = markup <$> doc.

(** The element at [j] is contained in the element at [a]. *)
Definition inside (doc : Document) (a j : nat) : Prop :=
  a < j <= a + descendants_at doc a.

(** Sample pages for the examples, all of texts without a doctype: a
    section with two items followed by an item outside any section, hidden
    by an earlier style; ... *)
Definition sample_page : Document :=
  document_of true
    [Tag ["section"] None None
       [Tag ["namespaceItem"] (Some "walk") None [];
        Tag ["namespaceItem"] (Some "copy") None []];
     Tag ["namespaceItem"] (Some "loose") (Some "none") []]%string.

(** ... a section holding an element that is both a section and a namespace
    item, which holds an item; ... *)
Definition nested_page : Document :=
  document_of true
    [Tag ["section"] None None
       [Tag ["section"; "namespaceItem"] (Some "outer") None
          [Tag ["namespaceItem"] (Some "inner") None []]]]%string.


(** A page handed over as the [content] prop, parsed to [sample_page], and a
    search that finds [walk] whatever the term. *)
Definition content_props : LocalSymbolSearchProps :=
  {| scope := "std"; pkg := "fs"; version := ""; content := Some "<section>" |}.

Definition parse_sample : string -> Document := fun _ => sample_page.

Definition finds_walk : Orama -> string -> list SearchRecord :=
  fun _ _ => [sample_record "." "walk"].

(** ** More about names and tokens *)

(** Whether a string holds a letter of [[A-Z]], and how many. *)
Fixpoint has_AZ (s : string) : bool :=
  match s with
  | EmptyString => false
  | String c s' => isAZ c || has_AZ s'
  end.

Fixpoint count_AZ (s : string) : nat :=
  match s with
  | EmptyString => 0
  | String c s' => (if isAZ c then 1 else 0) + count_AZ s'
  end.

(** ** More sample values *)

(** Props whose [content] is the empty string, and a server that answers
    with a page. *)
Definition empty_content_props : LocalSymbolSearchProps :=
  {| scope := "std"; pkg := "fs"; version := ""; content := Some "" |}.

Definition serving_api : Request -> APIResponse :=
  fun _ => APIResponseOk "<section>".

(** A page with class attributes that play no part, and two lists of matched
    names that differ in order and repetition only. *)
Definition plain_page : Document :=
  document_of true
    [Tag ["toc"] None (Some "flex") [];
     Tag ["section"] None None
       [Tag ["namespaceItem"] None None [];
        Tag ["namespaceItem"; "deprecated"] (Some "walk") None []];
     Tag ["section"] None None [Tag ["anchor"] (Some "walk") None []]]%string.

(** A page whose class attributes are not spelled as the component spells
    them, parsed from a text without a doctype and from the same text after
    a doctype. *)
Definition other_spelling : list Html :=
  [Tag ["Section"] None None
     [Tag ["namespaceitem"] (Some "walk") None [];
      Tag ["NAMESPACEITEM"] (Some "copy") None []]]%string.

Definition quirks_page : Document := document_of true other_spelling.
Definition no_quirks_page : Document := document_of false other_spelling.

Definition parse_quirks : string -> Document := fun _ => quirks_page.
Definition parse_no_quirks : string -> Document := fun _ => no_quirks_page.

(** A section holding two namespace items that also carry the class
    [Section]: one named [walk] with nothing below it, one without a name
    and with an item named [walk] below it. *)
Definition capital_section : list Html :=
  [Tag ["section"] None None
     [Tag ["namespaceItem"; "Section"] (Some "walk") None [];
      Tag ["namespaceItem"; "Section"] None None
        [Tag ["namespaceItem"] (Some "walk") None []]]]%string.

Definition hits_once : list string := ["copy"; "walk"]%string.
Definition hits_twice : list string := ["walk"; "copy"; "walk"]%string.

(** ** Histories of events *)

(** The value of the last non-empty input among the events of the flat
    variant, if there is one. *)
Fixpoint Flat_last_query (evs : list Flat.Event) : option string :=
  match evs with
  | [] => None
  | ev :: evs' =>
      match Flat_last_query evs' with
      | Some value => Some value
      | None =>
          match ev with
          | Flat.Input value => if truthy value then Some value else None
          | _ => None
          end
      end
  end.

(** The same for the sectioned variant, the value of the last input whether
    empty or not, and the number of non-empty inputs. *)
Fixpoint Sectioned_last_query (evs : list Sectioned.Event) : option string :=
  match evs with
  | [] => None
  | ev :: evs' =>
      match Sectioned_last_query evs' with
      | Some value => Some value
      | None =>
          match ev with
          | Sectioned.Input value => if truthy value then Some value else None
          | _ => None
          end
      end
  end.

Fixpoint Sectioned_last_input (evs : list Sectioned.Event) : option string :=
  match evs with
  | [] => None
  | ev :: evs' =>
      match Sectioned_last_input evs' with
      | Some value => Some value
      | None =>
          match ev with
          | Sectioned.Input value => Some value
          | _ => None
          end
      end
  end.

Fixpoint Sectioned_query_count (evs : list Sectioned.Event) : nat :=
  match evs with
  | [] => 0
  | Sectioned.Input value :: evs' =>
      (if truthy value then 1 else 0) + Sectioned_query_count evs'
  | _ :: evs' => Sectioned_query_count evs'
  end.

(** ** The two panels of the page (sectioned variant) *)

(** The host page, as far as the component reaches into it: the class lists
    of the elements [docMain] and [docSearchResults], and the content of the
    latter. *)
Record Page := {
  docMain : list string;
  docSearchResults : list string;
  docSearchResults_innerHTML : string
}.

(** [classList.add(c)] and [classList.remove(c)]. *)
Definition classList_add (c : string) (l : list string) : list string :=
  if bool_decide (c ∈ l) then l else l ++ [c].
Definition classList_remove (c : string) (l : list string) : list string :=
  List.filter (fun x => negb (bool_decide (x = c))) l.

Section Render.
(** [IS_BROWSER] of the runtime, and the serialisation behind
    [documentElement.innerHTML]. *)
Variable IS_BROWSER : bool.
Variable innerHTML : Document -> string.
Variable props : LocalSymbolSearchProps.

(** [parsedSearchContent.value?.documentElement?.innerHTML ?? props.content] *)
Definition shown_html (st : State) : option string :=
  match parsedSearchContent st with
  | Some doc => Some (innerHTML doc)
  | None => content props
  end.

(** The block of the component body that swaps the panels, run at every
    render. *)
Definition render (st : State) (page : Page) : Page :=
  if IS_BROWSER then
    if showResults st then
      let value := shown_html st in
      if truthy_opt value then
        {| docMain := classList_add "hidden" (docMain page);
           docSearchResults := classList_remove "hidden" (docSearchResults page);
           docSearchResults_innerHTML := default ""%string (shown_html st) |}
      else
        {| docMain := classList_remove "hidden" (docMain page);
           docSearchResults := classList_add "hidden" (docSearchResults page);
           docSearchResults_innerHTML := docSearchResults_innerHTML page |}
    else
      {| docMain := classList_remove "hidden" (docMain page);
         docSearchResults := classList_add "hidden" (docSearchResults page);
         docSearchResults_innerHTML := docSearchResults_innerHTML page |}
  else page.
End Render.

(** A host page with the results panel hidden, and a serialisation that
    tells the styles of the elements. *)
Definition sample_host : Page :=
  {| docMain := ["prose"]%string;
     docSearchResults := ["prose"; "hidden"]%string;
     docSearchResults_innerHTML := "" |}.

Definition styles_html (doc : Document) : string :=
  String.concat ";" (map (fun e => default "shown"%string (style_display e)) doc).

(** Whether the last click among the events of the flat variant landed
    inside the widget, if there was a click. *)
Fixpoint Flat_last_click (evs : list Flat.Event) : option bool :=
  match evs with
  | [] => None
  | ev :: evs' =>
      match Flat_last_click evs' with
      | Some inside => Some inside
      | None =>
          match ev with
          | Flat.Click inside => Some inside
          | _ => None
          end
      end
  end.
(** ** Facts about strings *)

Lemma string_app_cons (x : ascii) (a b : string) :
  String x a +:+ b = String x (a +:+ b).
Proof. reflexivity. Qed.

Lemma string_length_app (a b : string) :
  String.length (a +:+ b) = String.length a + String.length b.
Proof.
  induction a as [|c a IH]; [done|].
  rewrite string_app_cons. simpl. by rewrite IH.
Qed.

Lemma string_app_assoc (a b c : string) : (a +:+ b) +:+ c = a +:+ b +:+ c.
Proof.
  induction a as [|x a IH]; [done|].
  rewrite !string_app_cons. by f_equal.
Qed.

Lemma string_get_app (a : string) (c : ascii) (r : string) :
  String.get (String.length a) (a +:+ String c r) = Some c.
Proof. induction a as [|x a IH]; [done|]. by rewrite string_app_cons. Qed.

Lemma string_substring_prefix (b r : string) :
  String.substring 0 (String.length b) (b +:+ r) = b.
Proof.
  induction b as [|x b IH].
  - by destruct r.
  - rewrite string_app_cons. simpl. by f_equal.
Qed.

Lemma string_substring_app (a b r : string) :
  String.substring (String.length a) (String.length b) (a +:+ b +:+ r) = b.
Proof.
  induction a as [|x a IH]; [exact (string_substring_prefix b r)|].
  by rewrite string_app_cons.
Qed.

Lemma ascii_toLowerCase_nonempty (s : string) :
  nonempty (ascii_toLowerCase s) = nonempty s.
Proof. by destruct s. Qed.

Lemma toLowerCase_nonempty (u : string -> string) (s : string) :
  keeps_nonempty u -> nonempty (toLowerCase u s) = nonempty s.
Proof.
  intros Hu. unfold toLowerCase. destruct (is_ascii s) eqn:Hs.
  - apply ascii_toLowerCase_nonempty.
  - destruct s as [|c s]; [done|]. by rewrite Hu.
Qed.

(** ** The split loop computes [pieces] *)

Lemma SplitLoop_unfold (fuel : nat) (str : string) (p q : nat) (A : list string) :
  SplitLoop (S fuel) str p q A =
    if q <? String.length str then
      if lookahead_AZ str q then
        if q =? p then SplitLoop fuel str p (q + 1) A
        else SplitLoop fuel str q q (A ++ [String.substring p (q - p) str])
      else SplitLoop fuel str p (q + 1) A
    else A ++ [String.substring p (String.length str - p) str].
Proof. reflexivity. Qed.

Lemma SplitLoop_pieces (rest : string) :
  forall (pre cur : string) (fuel : nat) (A : list string),
    2 * String.length rest + 1 <= fuel ->
    SplitLoop fuel (pre +:+ cur +:+ rest)
      (String.length pre) (String.length pre + String.length cur) A
    = A ++ pieces cur rest.
Proof.
  induction rest as [|c rest IH]; intros pre cur fuel A Hfuel.
  - destruct fuel as [|fuel]; [simpl in Hfuel; lia|].
    rewrite SplitLoop_unfold, !string_length_app. simpl String.length.
    replace (_ <? _) with false by (symmetry; apply Nat.ltb_ge; lia).
    replace (String.length pre + (String.length cur + 0) - String.length pre)
      with (String.length cur) by lia.
    by rewrite string_substring_app.
  - simpl String.length in Hfuel.
    pose proof (string_substring_app pre cur (String c rest)) as Hsub.
    assert (Hget : lookahead_AZ (pre +:+ cur +:+ String c rest)
                     (String.length pre + String.length cur) = isAZ c).
    { unfold lookahead_AZ. rewrite <- string_app_assoc, <- string_length_app.
      by rewrite string_get_app. }
    assert (Hlt : (String.length pre + String.length cur
                   <? String.length (pre +:+ cur +:+ String c rest)) = true).
    { apply Nat.ltb_lt. rewrite !string_length_app. simpl. lia. }
    remember (pre +:+ cur +:+ String c rest) as str eqn:Hstr.
    remember (String.length pre + String.length cur) as q eqn:Hq.
    destruct fuel as [|fuel]; [lia|].
    rewrite SplitLoop_unfold, Hlt, Hget. simpl pieces.
    destruct (isAZ c) eqn:Hc.
    + destruct (q =? String.length pre) eqn:Hqp.
      * apply Nat.eqb_eq in Hqp.
        assert (cur = EmptyString) as ->.
        { destruct cur; [done | simpl in Hq; lia]. }
        simpl nonempty. cbv iota. subst str q.
        change (pre +:+ EmptyString +:+ String c rest)
          with (pre +:+ String c EmptyString +:+ rest).
        replace (String.length pre + String.length EmptyString + 1)
          with (String.length pre + String.length (String c EmptyString))
          by (simpl; lia).
        apply IH. lia.
      * apply Nat.eqb_neq in Hqp.
        assert (nonempty cur = true) as ->.
        { destruct cur; [simpl in Hq; lia | done]. }
        replace (q - String.length pre) with (String.length cur) by lia.
        rewrite Hsub.
        destruct fuel as [|fuel]; [lia|].
        rewrite SplitLoop_unfold, Hlt, Hget, Nat.eqb_refl.
        subst str q.
        replace (pre +:+ cur +:+ String c rest)
          with ((pre +:+ cur) +:+ String c EmptyString +:+ rest)
          by (by rewrite string_app_assoc).
        replace (String.length pre + String.length cur + 1)
          with (String.length (pre +:+ cur)
                + String.length (String c EmptyString))
          by (rewrite string_length_app; simpl; lia).
        rewrite <- string_length_app.
        rewrite IH by lia. by rewrite <- app_assoc.
    + subst str q.
      replace (String.length pre + String.length cur + 1)
        with (String.length pre + String.length (cur +:+ String c EmptyString))
        by (rewrite string_length_app; simpl; lia).
      replace (pre +:+ cur +:+ String c rest)
        with (pre +:+ (cur +:+ String c EmptyString) +:+ rest)
        by (by rewrite (string_app_assoc cur)).
      apply IH. lia.
Qed.

Lemma split_AZ_pieces (str : string) :
  split_AZ str = pieces EmptyString str.
Proof.
  unfold split_AZ. destruct str as [|c str]; [done|].
  change (String.length (String c str) =? 0) with false. cbv iota.
  apply (SplitLoop_pieces (String c str) EmptyString EmptyString). lia.
Qed.

Lemma string_app_empty_r (a : string) : a +:+ EmptyString = a.
Proof.
  induction a as [|x a IH]; [done|]. rewrite string_app_cons. by f_equal.
Qed.

Lemma spec_cut_cons (upper : string -> bool) (raw : string) :
  exists first others, spec_cut upper raw = first :: others.
Proof.
  induction raw as [|c raw [first [others IH]]]; simpl; [by eexists _, _|].
  rewrite IH. destruct (upper _); by eexists _, _.
Qed.

Lemma pieces_spec_cut (rest : string) :
  forall cur : string,
    nonempty cur || nonempty rest = true ->
    pieces cur rest
    = List.filter nonempty (prepend cur (spec_cut starts_AZ rest)).
Proof.
  induction rest as [|c rest IH]; intros cur Hne.
  - simpl. rewrite string_app_empty_r.
    rewrite orb_false_r in Hne. by rewrite Hne.
  - simpl pieces. simpl spec_cut.
    destruct (spec_cut_cons starts_AZ rest) as [first [others Hcut]].
    rewrite Hcut. destruct (isAZ c).
    + rewrite (IH (String c EmptyString)) by done.
      rewrite Hcut. simpl. rewrite string_app_empty_r.
      by destruct (nonempty cur).
    + rewrite IH by (by destruct cur). rewrite Hcut.
      unfold prepend. by rewrite string_app_assoc.
Qed.

(** The split of a non-empty string: the cut before every letter of
    [[A-Z]], without the empty piece a leading letter would give. *)
Lemma split_AZ_cut (raw : string) :
  nonempty raw = true ->
  split_AZ raw = List.filter nonempty (spec_cut starts_AZ raw).
Proof.
  intros Hne. rewrite split_AZ_pieces, pieces_spec_cut by done.
  by destruct (spec_cut_cons starts_AZ raw) as [first [others ->]].
Qed.

Lemma filter_map_toLowerCase (u : string -> string) (l : list string) :
  keeps_nonempty u ->
  map (toLowerCase u) (List.filter nonempty l)
  = List.filter nonempty (map (toLowerCase u) l).
Proof.
  intros Hu. induction l as [|s l IH]; simpl; [done|].
  rewrite toLowerCase_nonempty by done.
  destruct (nonempty s); simpl; by rewrite IH.
Qed.

Lemma split_AZ_spec (u : string -> string) (raw : string) :
  keeps_nonempty u ->
  nonempty raw = true ->
  map (toLowerCase u) (split_AZ raw) = spec_tokenize starts_AZ u raw.
Proof.
  intros Hu Hne. rewrite split_AZ_cut by done.
  by rewrite filter_map_toLowerCase.
Qed.

Lemma latin1_toLowerCase_keeps_nonempty : keeps_nonempty latin1_toLowerCase.
Proof.
  intros [|c s] Hs; [done|]. clear Hs. simpl.
  destruct (Nat.eqb _ 195); [|done].
  destruct s as [|d s]; [done|]. by destruct (_ && _).
Qed.

(** ** The tokenizer of the name field *)

(** Every other field goes to the generic tokenizer. *)
Lemma tokenize_other_field
    (unicode_toLowerCase : string -> string)
    (default_tokenize : string -> option string -> option string -> list string)
    (raw : string) (lang prop : option string) :
  prop <> Some "name"%string ->
  tokenize unicode_toLowerCase default_tokenize raw lang prop
  = default_tokenize raw lang prop.
Proof. intros Hprop. unfold tokenize. by rewrite bool_decide_eq_false_2. Qed.

(** A name of ASCII characters: whatever the engine does beyond ASCII. *)
Example tokenize_camelCase (unicode_toLowerCase : string -> string) :
  tokenize unicode_toLowerCase (fun _ _ _ => [])
           "getElementById" None (Some "name"%string)
  = ["get"; "element"; "by"; "id"]%string.
Proof. reflexivity. Qed.

(** A name that starts with a capital letter beyond ASCII: the engine's case
    mapping lowers it, and the name is cut before [N] only. *)
Example tokenize_beyond_ASCII :
  tokenize latin1_toLowerCase (fun _ _ _ => [])
           "ÉcoleName" None (Some "name"%string)
  = ["école"; "name"]%string.
Proof. reflexivity. Qed.

(** C2, as stated, fails twice.  On the empty string the specification's
    tokenizer drops the empty piece and [tokenize] keeps it ([split] of the
    empty string is the array holding the empty string, and nothing filters
    it).  And [tokenize] cuts before the letters of [[A-Z]] only: the name
    [aÉb] stays in one piece, whatever the engine's case mapping is, where
    the specification cuts before the uppercase letter [É]. *)
Lemma C2_tokenize_differs_from_the_stated_rule :
  (tokenize latin1_toLowerCase (fun _ _ _ => []) "" None (Some "name"%string)
   = [""%string]
   /\ spec_tokenize starts_uppercase latin1_toLowerCase "" = [])
  /\ (starts_uppercase "Éb" = true
      /\ tokenize latin1_toLowerCase (fun _ _ _ => [])
                  "aÉb" None (Some "name"%string)
         = ["aéb"%string]
      /\ spec_tokenize starts_uppercase latin1_toLowerCase "aÉb"
         = ["a"; "éb"]%string
      /\ forall (unicode_toLowerCase : string -> string)
                (default_tokenize :
                   string -> option string -> option string -> list string)
                (lang : option string),
           length (tokenize unicode_toLowerCase default_tokenize
                            "aÉb" lang (Some "name"%string)) = 1).
Proof. repeat split. Qed.

(** C2 (amended): tokenizing [raw] for the name field cuts a non-empty [raw]
    exactly at every position immediately preceding a letter of [[A-Z]] (and
    before no other uppercase letter), leaves out the empty piece a leading
    letter would give, and lowercases each piece with [toLowerCase]; that is
    the specification's rule read with [[A-Z]] for "uppercase letter", as no
    non-empty piece has an empty lowercase form.  For the empty string the
    result is the single empty piece.  And ["HTTPServer"] gives
    [h, t, t, p, server], whatever the engine's case mapping beyond ASCII
    and the generic tokenizer are. *)
Theorem C2_tokenize_name_field
    (unicode_toLowerCase : string -> string)
    (default_tokenize : string -> option string -> option string -> list string)
    (raw : string) (lang : option string) :
  tokenize unicode_toLowerCase default_tokenize raw lang (Some "name"%string)
  = (if nonempty raw
     then map (toLowerCase unicode_toLowerCase)
              (List.filter nonempty (spec_cut starts_AZ raw))
     else [""%string])
  /\ (keeps_nonempty unicode_toLowerCase ->
      nonempty raw = true ->
      tokenize unicode_toLowerCase default_tokenize raw lang
               (Some "name"%string)
      = spec_tokenize starts_AZ unicode_toLowerCase raw)
  /\ tokenize unicode_toLowerCase default_tokenize "HTTPServer" lang
              (Some "name"%string)
     = ["h"; "t"; "t"; "p"; "server"]%string.
Proof.
  split; [|split; [|reflexivity]].
  - unfold tokenize. rewrite bool_decide_eq_true_2 by done.
    destruct (nonempty raw) eqn:Hne.
    + by rewrite split_AZ_cut.
    + by destruct raw.
  - intros Hu Hne. unfold tokenize. rewrite bool_decide_eq_true_2 by done.
    by apply split_AZ_spec.
Qed.

Lemma C2_tokenize_name_field_witness :
  tokenize latin1_toLowerCase (fun _ _ _ => [])
           "parseÉcoleName" None (Some "name"%string)
  = spec_tokenize starts_AZ latin1_toLowerCase "parseÉcoleName".
Proof.
  apply (C2_tokenize_name_field latin1_toLowerCase (fun _ _ _ => [])
                                "parseÉcoleName" None).
  - exact latin1_toLowerCase_keeps_nonempty.
  - reflexivity.
Defined.

(** ** The widget: readiness, selection, navigation *)

(** C1 (the code departs from it): [disabled={!db}] negates the signal, not
    its value, so the input is enabled from the first render on, while the
    index cannot be queried yet, in both variants and in every state. *)
Theorem C1_input_enabled_while_not_queryable :
  (input_disabled Flat.initial = false /\ queryable Flat.initial = false)
  /\ (input_disabled Sectioned.initial = false
      /\ queryable Sectioned.initial = false)
  /\ (forall st : State, input_disabled st = false)
  /\ (let st := mount failing_api no_elements sample_props Flat.initial in
      input_disabled st = false /\ queryable st = false).
Proof. repeat split. Qed.

(** Closes the conjuncts of a frame statement once the handler is unfolded. *)
Ltac frame :=
  repeat split;
  first [ done | by left | by right | congruence | intros; congruence ].

Section Flat_facts.
Variable search : Orama -> string -> list SearchRecord.
Variable props : LocalSymbolSearchProps.

Lemma Flat_onKeyUp_ArrowDown (st : State) :
  Flat.onKeyUp props "ArrowDown" st
  = (set_selectionIdx
       (Z.min (Z.of_nat (length (results st)) - 1) (selectionIdx st + 1)) st,
     false).
Proof. reflexivity. Qed.

Lemma Flat_onKeyUp_ArrowUp (st : State) :
  Flat.onKeyUp props "ArrowUp" st
  = (set_selectionIdx (Z.max 0 (selectionIdx st - 1)) st, false).
Proof. reflexivity. Qed.

Lemma Flat_onKeyUp_Enter (st : State) :
  Flat.onKeyUp props "Enter" st
  = if (-1 <? selectionIdx st)%Z then
      match results st !! Z.to_nat (selectionIdx st) with
      | Some item => (navigate (Flat.item_url props item) st, true)
      | None => (st, false)
      end
    else (st, false).
Proof. reflexivity. Qed.

(** What no handler writes. *)
Lemma Flat_onKeyUp_frame (key : string) (st : State) :
  let st' := fst (Flat.onKeyUp props key st) in
  db st' = db st /\ results st' = results st
  /\ parsedSearchContent st' = parsedSearchContent st
  /\ console_error st' = console_error st /\ requests st' = requests st.
Proof.
  cbv zeta. unfold Flat.onKeyUp. repeat case_bool_decide; simpl; try done.
  destruct (_ <? _)%Z; [|done]. by destruct (_ !! _).
Qed.

Lemma Flat_onInput_frame (value : string) (st : State) :
  let st' := Flat.onInput search value st in
  db st' = db st
  /\ console_error st' = console_error st /\ requests st' = requests st
  /\ (results st' = results st \/ results st' = [])
  /\ (db st = None -> parsedSearchContent st' = parsedSearchContent st).
Proof.
  cbv zeta. unfold Flat.onInput.
  destruct (truthy value); [|simpl; frame].
  destruct (db st) eqn:Hdb; [|frame].
  destruct (parsedSearchContent st) eqn:Hdoc; simpl; rewrite ?Hdoc; simpl; frame.
Qed.

Lemma Flat_handle_frame (st : State) (ev : Flat.Event) :
  let st' := Flat.handle search props st ev in
  db st' = db st
  /\ console_error st' = console_error st /\ requests st' = requests st
  /\ (results st' = results st \/ results st' = [])
  /\ (db st = None -> parsedSearchContent st' = parsedSearchContent st).
Proof.
  cbv zeta. destruct ev as [value|key|inside]; simpl.
  - apply Flat_onInput_frame.
  - pose proof (Flat_onKeyUp_frame key st) as H. simpl in H.
    destruct H as (? & ? & ? & ? & ?). frame.
  - frame.
Qed.

Lemma Flat_run_frame (evs : list Flat.Event) (st : State) :
  let st' := Flat.run search props evs st in
  db st' = db st
  /\ console_error st' = console_error st /\ requests st' = requests st
  /\ (results st = [] -> results st' = [])
  /\ (db st = None -> parsedSearchContent st' = parsedSearchContent st).
Proof.
  cbv zeta. unfold Flat.run. revert st.
  induction evs as [|ev evs IH]; intros st; [done|].
  cbn [foldl].
  destruct (Flat_handle_frame st ev) as (H1 & H2 & H3 & H4 & H5).
  destruct (IH (Flat.handle search props st ev)) as (I1 & I2 & I3 & I4 & I5).
  rewrite I1, I2, I3, H1, H2, H3. repeat split.
  - intros Hr. apply I4. destruct H4 as [-> | ->]; done.
  - intros Hdb. rewrite I5 by congruence. by apply H5.
Qed.

(** No handler selects an index below -1. *)
Lemma Flat_handle_lower (st : State) (ev : Flat.Event) :
  (-1 <= selectionIdx st)%Z ->
  (-1 <= selectionIdx (Flat.handle search props st ev))%Z.
Proof.
  intros Hs. destruct ev as [value|key|inside]; simpl; [| |done].
  - unfold Flat.onInput. destruct (truthy value); [|done].
    destruct (db st); [|done]. simpl.
    destruct (parsedSearchContent st); simpl; lia.
  - unfold Flat.onKeyUp. repeat case_bool_decide; simpl; try done.
    + lia.
    + lia.
    + destruct (_ <? _)%Z; [|done]. by destruct (_ !! _).
Qed.

Lemma Flat_run_lower (evs : list Flat.Event) (st : State) :
  (-1 <= selectionIdx st)%Z ->
  (-1 <= selectionIdx (Flat.run search props evs st))%Z.
Proof.
  unfold Flat.run. revert st.
  induction evs as [|ev evs IH]; intros st Hs; [done|].
  cbn [foldl]. by apply IH, Flat_handle_lower.
Qed.

End Flat_facts.

Lemma mount_frame (api_get : Request -> APIResponse)
    (parseFromString : string -> Document) (props : LocalSymbolSearchProps)
    (st : State) :
  let st' := mount api_get parseFromString props st in
  results st' = results st /\ selectionIdx st' = selectionIdx st.
Proof.
  cbv zeta. unfold mount. destruct (negb _); [|done].
  by destruct (api_get _).
Qed.

Section Sectioned_facts.
Variable search : Orama -> string -> list SearchRecord.

Lemma Sectioned_handle_frame (st : State) (ev : Sectioned.Event) :
  let st' := Sectioned.handle search st ev in
  db st' = db st
  /\ console_error st' = console_error st /\ requests st' = requests st
  /\ (db st = None -> parsedSearchContent st' = parsedSearchContent st).
Proof.
  cbv zeta. destruct ev as [value|key]; simpl; [|frame].
  unfold Sectioned.onInput. destruct (truthy value); [|simpl; frame].
  destruct (db st) eqn:Hdb; [|frame].
  destruct (parsedSearchContent st) eqn:Hdoc; simpl; rewrite ?Hdoc; simpl; frame.
Qed.

Lemma Sectioned_run_frame (evs : list Sectioned.Event) (st : State) :
  let st' := Sectioned.run search evs st in
  db st' = db st
  /\ console_error st' = console_error st /\ requests st' = requests st
  /\ (db st = None -> parsedSearchContent st' = parsedSearchContent st).
Proof.
  cbv zeta. unfold Sectioned.run. revert st.
  induction evs as [|ev evs IH]; intros st; [done|].
  cbn [foldl].
  destruct (Sectioned_handle_frame st ev) as (H1 & H2 & H3 & H4).
  destruct (IH (Sectioned.handle search st ev)) as (I1 & I2 & I3 & I4).
  rewrite I1, I2, I3, H1, H2, H3. repeat split.
  intros Hdb. rewrite I4 by congruence. by apply H4.
Qed.

End Sectioned_facts.

Lemma mount_failed (api_get : Request -> APIResponse)
    (parseFromString : string -> Document) (props : LocalSymbolSearchProps)
    (st : State) :
  truthy_opt (content props) = false ->
  ok (api_get (search_request props)) = false ->
  mount api_get parseFromString props st
  = log_error (api_get (search_request props))
      (send (search_request props) st).
Proof.
  intros Hc Hresp. unfold mount. rewrite Hc. simpl.
  by destruct (api_get (search_request props)).
Qed.

Lemma item_url_spec (props : LocalSymbolSearchProps) (item : SearchRecord) :
  Flat.item_url props item
  = spec_url (scope props) (pkg props) (version props) (file item) (name item).
Proof.
  unfold Flat.item_url, spec_url, truthy.
  destruct (version props); by repeat case_bool_decide.
Qed.

(** ** The selection index *)

(** C6, as stated, fails: ArrowUp on the freshly mounted widget selects index
    0 although no result is recorded, and an empty query clears the results
    without touching the selection. *)
Lemma C6_ArrowUp_leaves_the_range :
  (let st := Flat.run no_hits sample_props [Flat.KeyUp "ArrowUp"] Flat.initial in
   selectionIdx st = 0%Z /\ results st = [] /\ ~ selection_in_range st)
  /\ (let st := set_selectionIdx 2 three_results in
      selection_in_range st
      /\ ~ selection_in_range (Flat.onInput no_hits "" st)).
Proof.
  unfold selection_in_range. simpl. repeat split; try lia.
Qed.

(** C6 (amended): after every sequence of input, keyboard and click events,
    before or after the mount effect has run, the selection is at least -1;
    ArrowDown, Enter and a non-empty query keep it in
    [[-1, resultRecords.length - 1]]; ArrowUp sets it to
    [max(0, selectionIndex - 1)] and leaves the results alone; an empty query
    clears the results and leaves the selection alone. *)
Theorem C6_selection_bounds
    (api_get : Request -> APIResponse) (parseFromString : string -> Document)
    (search : Orama -> string -> list SearchRecord)
    (props : LocalSymbolSearchProps) :
  (forall evs1 evs2 : list Flat.Event,
      let st1 := Flat.run search props evs1 Flat.initial in
      let st2 := Flat.run search props evs2
                   (mount api_get parseFromString props st1) in
      (-1 <= selectionIdx st1)%Z /\ (-1 <= selectionIdx st2)%Z)
  /\ (forall st : State,
         selection_in_range st ->
         selection_in_range (fst (Flat.onKeyUp props "ArrowDown" st))
         /\ selection_in_range (fst (Flat.onKeyUp props "Enter" st))
         /\ (forall value : string,
                truthy value = true ->
                selection_in_range (Flat.onInput search value st)))
  /\ (forall st : State,
         let st' := fst (Flat.onKeyUp props "ArrowUp" st) in
         selectionIdx st' = Z.max 0 (selectionIdx st - 1)
         /\ results st' = results st)
  /\ (forall (st : State) (value : string),
         truthy value = false ->
         let st' := Flat.onInput search value st in
         results st' = [] /\ selectionIdx st' = selectionIdx st).
Proof.
  split; [|split; [|split]].
  - intros evs1 evs2. cbv zeta.
    assert (H1 : (-1 <= selectionIdx
                          (Flat.run search props evs1 Flat.initial))%Z)
      by (by apply Flat_run_lower).
    split; [done|]. apply Flat_run_lower.
    by destruct (mount_frame api_get parseFromString props
                   (Flat.run search props evs1 Flat.initial)) as [_ ->].
  - intros st Hin. unfold selection_in_range in *.
    split; [split|split; [split|]].
    + rewrite Flat_onKeyUp_ArrowDown. simpl. lia.
    + rewrite Flat_onKeyUp_ArrowDown. simpl. lia.
    + rewrite Flat_onKeyUp_Enter.
      destruct (_ <? _)%Z; [|simpl; lia]. destruct (_ !! _); simpl; lia.
    + rewrite Flat_onKeyUp_Enter.
      destruct (_ <? _)%Z; [|simpl; lia]. destruct (_ !! _); simpl; lia.
    + unfold Flat.onInput. intros value ->. destruct (db st); [|lia].
      simpl. destruct (parsedSearchContent st); simpl; lia.
  - intros st. by rewrite Flat_onKeyUp_ArrowUp.
  - intros st value Hv. unfold Flat.onInput. by rewrite Hv.
Qed.

Lemma C6_selection_bounds_witness :
  selection_in_range three_results
  /\ selection_in_range (fst (Flat.onKeyUp sample_props "ArrowDown" three_results))
  /\ selection_in_range (Flat.onInput no_hits "walk" three_results).
Proof.
  assert (Hin : selection_in_range three_results)
    by (unfold selection_in_range; simpl; lia).
  destruct (C6_selection_bounds failing_api no_elements no_hits sample_props)
    as (_ & Hkeep & _).
  destruct (Hkeep three_results Hin) as (Hdown & _ & Hquery).
  split; [exact Hin | split; [exact Hdown | apply Hquery; reflexivity]].
Defined.

(** C7, as stated, fails in its second half: ArrowUp with nothing selected
    selects index 0. *)
Lemma C7_ArrowUp_from_none_selects_the_first :
  length (results three_results) = 3
  /\ selectionIdx three_results = (-1)%Z
  /\ selectionIdx (fst (Flat.onKeyUp sample_props "ArrowUp" three_results)) = 0%Z
  /\ selectionIdx (fst (Flat.onKeyUp sample_props "ArrowUp" three_results))
     <> (-1)%Z.
Proof. repeat split; discriminate. Qed.

(** C7 (amended): with three result records and nothing selected, four
    presses of ArrowDown leave the selection at 2, and ArrowUp with nothing
    selected sets it to 0, that is [max(0, selectionIndex - 1)]. *)
Theorem C7_arrow_keys_on_three_results
    (props : LocalSymbolSearchProps) (st : State) :
  length (results st) = 3 ->
  selectionIdx st = (-1)%Z ->
  let down := fun st => fst (Flat.onKeyUp props "ArrowDown" st) in
  selectionIdx (down (down (down (down st)))) = 2%Z
  /\ selectionIdx (fst (Flat.onKeyUp props "ArrowUp" st)) = 0%Z.
Proof.
  intros Hlen Hsel. cbv zeta beta.
  rewrite !Flat_onKeyUp_ArrowDown, Flat_onKeyUp_ArrowUp. simpl.
  rewrite Hlen, Hsel. split; reflexivity.
Qed.

Lemma C7_arrow_keys_on_three_results_witness :
  let down := fun st => fst (Flat.onKeyUp sample_props "ArrowDown" st) in
  selectionIdx (down (down (down (down three_results)))) = 2%Z
  /\ selectionIdx (fst (Flat.onKeyUp sample_props "ArrowUp" three_results)) = 0%Z.
Proof.
  apply (C7_arrow_keys_on_three_results sample_props three_results);
    reflexivity.
Defined.

(** ** Enter *)

(** C8: Enter with nothing selected changes nothing and does not prevent the
    default action; Enter with a valid selection prevents it and sets
    [location.href] to
    [/@{scope}/{pkg}[@{version}]/doc{file == "." ? "" : file}/~/{name}] of the
    selected record, and nothing else. *)
Theorem C8_enter_navigates_to_the_selected_record
    (props : LocalSymbolSearchProps) (st : State) :
  (selectionIdx st = (-1)%Z -> Flat.onKeyUp props "Enter" st = (st, false))
  /\ ((0 <= selectionIdx st < Z.of_nat (length (results st)))%Z ->
      exists item : SearchRecord,
        results st !! Z.to_nat (selectionIdx st) = Some item
        /\ Flat.onKeyUp props "Enter" st
           = (navigate (spec_url (scope props) (pkg props) (version props)
                          (file item) (name item)) st,
              true)).
Proof.
  rewrite Flat_onKeyUp_Enter. split.
  - by intros ->.
  - intros Hvalid.
    destruct (lookup_lt_is_Some_2 (results st) (Z.to_nat (selectionIdx st)))
      as [item Hitem]; [lia|].
    exists item. split; [done|]. rewrite Hitem, item_url_spec.
    by replace (-1 <? selectionIdx st)%Z with true
      by (symmetry; apply Z.ltb_lt; lia).
Qed.

Lemma C8_enter_navigates_to_the_selected_record_witness :
  Flat.onKeyUp sample_props "Enter" three_results = (three_results, false)
  /\ location_href
       (fst (Flat.onKeyUp sample_props "Enter"
               (set_selectionIdx 1 three_results)))
     = Some "/@std/fs@1.0.0/doc/mod.ts/~/copy"%string.
Proof.
  split.
  - apply (C8_enter_navigates_to_the_selected_record sample_props three_results).
    reflexivity.
  - destruct (C8_enter_navigates_to_the_selected_record sample_props
                (set_selectionIdx 1 three_results)) as [_ Hnav].
    destruct Hnav as (item & Hitem & ->); [simpl; lia|].
    simpl in Hitem. injection Hitem as <-. reflexivity.
Defined.

(** ** A failed request *)

(** C9: when the content has to be requested and the response is not ok, the
    effect issues that one request, logs the response and stops: no signal is
    written, and whatever events come before or after, in either variant, no
    database and no document are published, the index cannot be queried, and
    no further request is sent. *)
Theorem C9_failed_fetch_aborts
    (api_get : Request -> APIResponse) (parseFromString : string -> Document)
    (search : Orama -> string -> list SearchRecord)
    (props : LocalSymbolSearchProps) :
  truthy_opt (content props) = false ->
  ok (api_get (search_request props)) = false ->
  (forall st : State,
      let st' := mount api_get parseFromString props st in
      db st' = db st /\ parsedSearchContent st' = parsedSearchContent st
      /\ results st' = results st /\ selectionIdx st' = selectionIdx st
      /\ showResults st' = showResults st
      /\ searchCounter st' = searchCounter st
      /\ location_href st' = location_href st
      /\ console_error st'
         = console_error st ++ [api_get (search_request props)]
      /\ requests st' = requests st ++ [search_request props])
  /\ (forall evs1 evs2 : list Flat.Event,
         let st' := Flat.run search props evs2
                      (mount api_get parseFromString props
                         (Flat.run search props evs1 Flat.initial)) in
         db st' = None /\ queryable st' = false
         /\ parsedSearchContent st' = None
         /\ console_error st' = [api_get (search_request props)]
         /\ requests st' = [search_request props])
  /\ (forall evs1 evs2 : list Sectioned.Event,
         let st' := Sectioned.run search evs2
                      (mount api_get parseFromString props
                         (Sectioned.run search evs1 Sectioned.initial)) in
         db st' = None /\ queryable st' = false
         /\ parsedSearchContent st' = None
         /\ console_error st' = [api_get (search_request props)]
         /\ requests st' = [search_request props]).
Proof.
  intros Hc Hresp. split; [|split].
  - intros st. cbv zeta. by rewrite mount_failed.
  - intros evs1 evs2. cbv zeta.
    destruct (Flat_run_frame search props evs1 Flat.initial)
      as (H1 & H2 & H3 & _ & H5).
    set (st1 := Flat.run search props evs1 Flat.initial) in *.
    destruct (Flat_run_frame search props evs2
                (mount api_get parseFromString props st1))
      as (I1 & I2 & I3 & _ & I5).
    rewrite mount_failed in * by done.
    simpl in *. unfold queryable, db_value.
    rewrite I1, I2, I3, I5, H1, H2, H3, H5 by congruence. done.
  - intros evs1 evs2. cbv zeta.
    destruct (Sectioned_run_frame search evs1 Sectioned.initial)
      as (H1 & H2 & H3 & H5).
    set (st1 := Sectioned.run search evs1 Sectioned.initial) in *.
    destruct (Sectioned_run_frame search evs2
                (mount api_get parseFromString props st1))
      as (I1 & I2 & I3 & I5).
    rewrite mount_failed in * by done.
    simpl in *. unfold queryable, db_value.
    rewrite I1, I2, I3, I5, H1, H2, H3, H5 by congruence. done.
Qed.

Lemma C9_failed_fetch_aborts_witness :
  let st' := Flat.run no_hits sample_props [Flat.Input "walk"; Flat.KeyUp "Enter"]
               (mount failing_api no_elements sample_props
                  (Flat.run no_hits sample_props [Flat.Input "w"] Flat.initial)) in
  db st' = None /\ queryable st' = false
  /\ parsedSearchContent st' = None
  /\ console_error st' = [APIResponseError "500"]
  /\ requests st' = [search_request sample_props].
Proof.
  destruct (C9_failed_fetch_aborts failing_api no_elements no_hits
              sample_props) as (_ & Hflat & _);
    [reflexivity | reflexivity |].
  exact (Hflat [Flat.Input "w"] [Flat.Input "walk"; Flat.KeyUp "Enter"]).
Defined.

(** ** Elements and their display *)

Lemma hidden_with_display (v : option string) (e : Element) :
  hidden (with_display v e) = bool_decide (v = Some "none"%string).
Proof. reflexivity. Qed.

Lemma show_or_hide_display (results : list string) (e : Element) :
  Flat.show_or_hide results e = with_display (item_display results e) e.
Proof.
  unfold Flat.show_or_hide, item_display.
  by destruct (includes results (dataset_name e)).
Qed.

Lemma show_or_hide_twice (results : list string) (e : Element) :
  Flat.show_or_hide results (Flat.show_or_hide results e)
  = Flat.show_or_hide results e.
Proof. by rewrite !show_or_hide_display. Qed.

Lemma visible_show_or_hide (results : list string) (e : Element) :
  visible (Flat.show_or_hide results e) = includes results (dataset_name e).
Proof.
  rewrite show_or_hide_display. unfold visible, item_display.
  rewrite hidden_with_display. by destruct (includes _ _).
Qed.

(** ** Collections of elements *)

Lemma has_class_at_lt (doc : Document) (c : string) (i : nat) :
  has_class_at doc c i = true -> i < length doc.
Proof.
  unfold has_class_at. destruct (doc !! i) eqn:Hi; [|done].
  intros _. apply lookup_lt_is_Some_1. by eexists.
Qed.

Lemma In_getElementsByClassName (doc : Document) (c : string) (j : nat) :
  In j (getElementsByClassName doc c) <-> has_class_at doc c j = true.
Proof.
  unfold getElementsByClassName. rewrite filter_In, in_seq. split.
  - by intros [_ H].
  - intros H. split; [|done]. apply has_class_at_lt in H. lia.
Qed.

Lemma In_getElementsByClassName_in (doc : Document) (i : nat) (c : string)
    (j : nat) :
  In j (getElementsByClassName_in doc i c)
  <-> has_class_at doc c j = true /\ i < j <= i + descendants_at doc i.
Proof.
  unfold getElementsByClassName_in. rewrite filter_In, in_seq. split.
  - intros [Hr H]. split; [done | lia].
  - intros [H Hr]. split; [lia | done].
Qed.

(** A loop that applies the same idempotent change at each index of a list. *)
Lemma foldl_alter_lookup (f : Element -> Element) (items : list nat) :
  (forall e, f (f e) = f e) ->
  forall (doc : Document) (j : nat),
    foldl (fun d i => alter f i d) doc items !! j
    = if decide (j ∈ items) then f <$> doc !! j else doc !! j.
Proof.
  intros Hf. induction items as [|i items IH]; intros doc j.
  - cbn [foldl]. rewrite decide_False; [done | apply not_elem_of_nil].
  - cbn [foldl]. rewrite IH.
    destruct (decide (i = j)) as [->|Hne].
    + rewrite list_lookup_alter_eq.
      rewrite (decide_True (P := j ∈ j :: items)) by apply list_elem_of_here.
      destruct (doc !! j); simpl; [|by case_decide].
      rewrite Hf. by case_decide.
    + rewrite list_lookup_alter_ne by done.
      destruct (decide (j ∈ items)) as [Hin|Hnin].
      * by rewrite decide_True by (by apply list_elem_of_further).
      * rewrite decide_False; [done|].
        rewrite elem_of_cons. intros [?|?]; done.
Qed.

(** ** The flat loop, element by element *)

Lemma Flat_reconcile_lookup (results : list string) (doc : Document) (j : nat) :
  Flat.reconcile results doc !! j
  = if has_class_at doc "namespaceItem" j
    then Flat.show_or_hide results <$> doc !! j
    else doc !! j.
Proof.
  unfold Flat.reconcile.
  rewrite foldl_alter_lookup by apply show_or_hide_twice.
  destruct (has_class_at doc "namespaceItem" j) eqn:Hc.
  - rewrite decide_True; [done|].
    by apply list_elem_of_In, In_getElementsByClassName.
  - rewrite decide_False; [done|].
    rewrite list_elem_of_In, In_getElementsByClassName. congruence.
Qed.

Lemma Flat_reconcile_has_class_at (results : list string) (doc : Document)
    (c : string) (j : nat) :
  has_class_at (Flat.reconcile results doc) c j = has_class_at doc c j.
Proof.
  unfold has_class_at. rewrite Flat_reconcile_lookup.
  destruct (has_class_at doc "namespaceItem" j); [|done].
  destruct (doc !! j) as [e|]; [|done]. simpl.
  by rewrite show_or_hide_display.
Qed.

Lemma Flat_reconcile_twice (results : list string) (doc : Document) :
  Flat.reconcile results (Flat.reconcile results doc)
  = Flat.reconcile results doc.
Proof.
  apply list_eq. intros j.
  rewrite (Flat_reconcile_lookup results (Flat.reconcile results doc)).
  rewrite Flat_reconcile_has_class_at, Flat_reconcile_lookup.
  destruct (has_class_at doc "namespaceItem" j); [|done].
  destruct (doc !! j) as [e|]; [|done]. simpl.
  by rewrite show_or_hide_twice.
Qed.

(** ** Documents that differ in styles only *)

Lemma same_markup_lookup (d doc : Document) (j : nat) :
  same_markup d doc -> markup <$> d !! j = markup <$> doc !! j.
Proof. intros H. by rewrite <- !list_lookup_fmap, H. Qed.

Lemma same_markup_length (d doc : Document) :
  same_markup d doc -> length d = length doc.
Proof.
  intros H. by rewrite <- (length_fmap markup d), H, length_fmap.
Qed.

Lemma same_markup_has_class_at (d doc : Document) (c : string) (j : nat) :
  same_markup d doc -> has_class_at d c j = has_class_at doc c j.
Proof.
  intros H. apply (same_markup_lookup _ _ j) in H. unfold has_class_at.
  destruct (d !! j), (doc !! j); simplify_eq/=; [|done].
  unfold hasClass.
  replace (classList e) with (classList e0) by congruence.
  by replace (quirks e) with (quirks e0) by congruence.
Qed.

Lemma same_markup_name_at (d doc : Document) (j : nat) :
  same_markup d doc -> name_at d j = name_at doc j.
Proof.
  intros H. apply (same_markup_lookup _ _ j) in H. unfold name_at.
  destruct (d !! j), (doc !! j); simplify_eq/=; [congruence|done].
Qed.

Lemma same_markup_descendants_at (d doc : Document) (j : nat) :
  same_markup d doc -> descendants_at d j = descendants_at doc j.
Proof.
  intros H. apply (same_markup_lookup _ _ j) in H. unfold descendants_at.
  destruct (d !! j), (doc !! j); simplify_eq/=; [congruence|done].
Qed.

Lemma same_markup_getElementsByClassName_in (d doc : Document) (i : nat)
    (c : string) :
  same_markup d doc ->
  getElementsByClassName_in d i c = getElementsByClassName_in doc i c.
Proof.
  intros H. unfold getElementsByClassName_in.
  rewrite (same_markup_descendants_at _ _ _ H). apply filter_ext.
  intros j. by apply same_markup_has_class_at.
Qed.

Lemma same_markup_section_display (results : list string) (d doc : Document)
    (i : nat) :
  same_markup d doc ->
  section_display results d i = section_display results doc i.
Proof.
  intros H. unfold section_display, hidden_below.
  rewrite (same_markup_getElementsByClassName_in _ _ _ _ H).
  rewrite (filter_ext (fun j => negb (includes results (name_at d j)))
                      (fun j => negb (includes results (name_at doc j))));
    [done|].
  intros j. by rewrite (same_markup_name_at _ _ _ H).
Qed.

Lemma existsb_pointwise {A : Type} (f g : A -> bool) (l : list A) :
  (forall a, f a = g a) -> existsb f l = existsb g l.
Proof.
  intros Hfg. induction l as [|a l IH]; simpl; [done|]. by rewrite Hfg, IH.
Qed.

Lemma same_markup_under_section (d doc : Document) (k j : nat) :
  same_markup d doc -> under_section d k j = under_section doc k j.
Proof.
  intros H. unfold under_section. apply existsb_pointwise. intros a.
  by rewrite (same_markup_has_class_at _ _ _ _ H),
             (same_markup_descendants_at _ _ _ H).
Qed.

Lemma same_markup_settled (results : list string) (d doc : Document)
    (k j : nat) (e : Element) :
  same_markup d doc -> settled results d k j e = settled results doc k j e.
Proof.
  intros H. unfold settled.
  by rewrite !(same_markup_has_class_at _ _ _ _ H),
             (same_markup_section_display _ _ _ _ H),
             (same_markup_under_section _ _ _ _ H).
Qed.

Lemma markup_settled (results : list string) (doc : Document) (k j : nat)
    (e : Element) :
  markup (settled results doc k j e) = markup e.
Proof.
  unfold settled. destruct (_ && _); [done|]. by destruct (_ && _).
Qed.

Lemma settled_twice (results : list string) (doc : Document) (k j : nat)
    (e : Element) :
  settled results doc k j (settled results doc k j e)
  = settled results doc k j e.
Proof.
  unfold settled. destruct (_ && _); [done|]. by destruct (_ && _).
Qed.

(** A document whose elements are those of [doc] up to their display. *)
Lemma same_markup_pointwise (f : nat -> Element -> Element) (d doc : Document) :
  (forall j e, markup (f j e) = markup e) ->
  (forall j, d !! j = f j <$> doc !! j) ->
  same_markup d doc.
Proof.
  intros Hf Hd. apply list_eq. intros j.
  rewrite !list_lookup_fmap, Hd. destruct (doc !! j); simpl; [|done].
  by rewrite Hf.
Qed.

Lemma under_section_true (doc : Document) (k j : nat) :
  under_section doc k j = true
  <-> exists a, a < k /\ has_class_at doc "section" a = true /\ inside doc a j.
Proof.
  unfold under_section, inside. rewrite existsb_exists. split.
  - intros (a & Hin & Ha). apply in_seq in Hin.
    apply andb_prop in Ha as [Ha H3]. apply andb_prop in Ha as [H1 H2].
    apply Nat.ltb_lt in H2. apply Nat.leb_le in H3.
    exists a. repeat split; [lia | done | lia | lia].
  - intros (a & Hk & Hc & H1 & H2). exists a. split; [apply in_seq; lia|].
    rewrite Hc. simpl. apply andb_true_intro. split.
    + by apply Nat.ltb_lt.
    + by apply Nat.leb_le.
Qed.

(** ** The inner loop *)

Lemma alter_by_name (results : list string) (doc : Document) (j : nat) :
  (if includes results (name_at doc j)
   then alter removeProperty_display j doc
   else alter (setProperty_display "none") j doc)
  = alter (Flat.show_or_hide results) j doc.
Proof.
  apply list_eq. intros k. unfold name_at.
  destruct (decide (j = k)) as [->|Hne].
  - rewrite list_lookup_alter_eq. unfold Flat.show_or_hide.
    destruct (doc !! k) as [e|] eqn:Hk; simpl.
    + destruct (includes results (dataset_name e));
        by rewrite list_lookup_alter_eq, Hk.
    + destruct (includes results None);
        by rewrite list_lookup_alter_eq, Hk.
  - rewrite list_lookup_alter_ne by done.
    destruct (includes results _); by rewrite list_lookup_alter_ne.
Qed.

Lemma name_at_alter_display (f : Element -> Element) (doc : Document)
    (i j : nat) :
  (forall e, dataset_name (f e) = dataset_name e) ->
  name_at (alter f i doc) j = name_at doc j.
Proof.
  intros Hf. unfold name_at. destruct (decide (i = j)) as [->|Hne].
  - rewrite list_lookup_alter_eq. destruct (doc !! j); simpl; [apply Hf|done].
  - by rewrite list_lookup_alter_ne.
Qed.

Lemma items_loop_from (results : list string) (items : list nat) :
  forall (doc : Document) (hiddenItems : nat),
    foldl (fun '(doc, hiddenItems) searchItem =>
             if includes results (name_at doc searchItem)
             then (alter removeProperty_display searchItem doc, hiddenItems)
             else (alter (setProperty_display "none") searchItem doc,
                   S hiddenItems))
          (doc, hiddenItems) items
    = (foldl (fun d j => alter (Flat.show_or_hide results) j d) doc items,
       hiddenItems
       + length (List.filter
                   (fun j => negb (includes results (name_at doc j))) items)).
Proof.
  induction items as [|j items IH]; intros doc hiddenItems.
  - simpl. by rewrite Nat.add_0_r.
  - cbn [foldl List.filter].
    rewrite <- (alter_by_name results doc j).
    destruct (includes results (name_at doc j)) eqn:Hj; cbn [negb];
      rewrite IH; f_equal.
    + f_equal. f_equal. apply filter_ext. intros k.
      by rewrite name_at_alter_display.
    + cbn [length]. rewrite Nat.add_succ_r. cbn [Nat.add]. f_equal. f_equal.
      f_equal. apply filter_ext. intros k.
      by rewrite name_at_alter_display.
Qed.

Lemma items_loop_spec (results : list string) (items : list nat)
    (doc : Document) :
  Sectioned.items_loop results items doc
  = (foldl (fun d j => alter (Flat.show_or_hide results) j d) doc items,
     length (List.filter
               (fun j => negb (includes results (name_at doc j))) items)).
Proof. unfold Sectioned.items_loop. by rewrite items_loop_from. Qed.

(** ** One section *)

Lemma section_step_alter (results : list string) (doc : Document) (i : nat) :
  Sectioned.section_step results doc i
  = alter (with_display (section_display results doc i)) i
      (foldl (fun d j => alter (Flat.show_or_hide results) j d) doc
             (getElementsByClassName_in doc i "namespaceItem")).
Proof.
  unfold Sectioned.section_step. rewrite items_loop_spec.
  unfold section_display, hidden_below. by destruct (_ =? _).
Qed.

Lemma section_step_lookup (results : list string) (doc : Document) (i j : nat) :
  Sectioned.section_step results doc i !! j
  = if decide (j = i)
    then with_display (section_display results doc i) <$> doc !! j
    else if decide (j ∈ getElementsByClassName_in doc i "namespaceItem")
    then Flat.show_or_hide results <$> doc !! j
    else doc !! j.
Proof.
  rewrite section_step_alter. destruct (decide (j = i)) as [->|Hne].
  - rewrite list_lookup_alter_eq.
    rewrite foldl_alter_lookup by apply show_or_hide_twice.
    case_decide; [|done]. destruct (doc !! i); [|done]. simpl.
    by rewrite show_or_hide_display.
  - rewrite list_lookup_alter_ne by done.
    by rewrite foldl_alter_lookup by apply show_or_hide_twice.
Qed.

(** ** All sections *)

Lemma under_section_S (doc : Document) (k j : nat) :
  under_section doc (S k) j
  = under_section doc k j
    || (has_class_at doc "section" k
        && (k <? j) && (j <=? k + descendants_at doc k)).
Proof.
  unfold under_section. rewrite seq_S, existsb_app. simpl.
  by rewrite orb_false_r.
Qed.

Lemma settled_0 (results : list string) (doc : Document) (j : nat)
    (e : Element) :
  settled results doc 0 j e = e.
Proof.
  unfold settled, under_section. simpl. by rewrite !andb_false_r.
Qed.

Lemma with_display_settled (results : list string) (doc : Document)
    (k j : nat) (v : option string) (e : Element) :
  with_display v (settled results doc k j e) = with_display v e.
Proof.
  unfold settled. destruct (_ && _); [done|]. by destruct (_ && _).
Qed.

Lemma show_or_hide_settled (results : list string) (doc : Document)
    (k j : nat) (e : Element) :
  Flat.show_or_hide results (settled results doc k j e)
  = with_display (item_display results e) e.
Proof.
  rewrite show_or_hide_display. unfold settled.
  destruct (_ && _); [done|]. by destruct (_ && _).
Qed.

(** The section at [k] has been done. *)
Lemma settled_S_section (results : list string) (doc : Document) (k j : nat)
    (e : Element) :
  has_class_at doc "section" k = true ->
  settled results doc (S k) j e
  = if decide (j = k) then with_display (section_display results doc k) e
    else if decide (j ∈ getElementsByClassName_in doc k "namespaceItem")
    then with_display (item_display results e) e
    else settled results doc k j e.
Proof.
  intros Hk. unfold settled. rewrite under_section_S, Hk.
  destruct (decide (j = k)) as [->|Hne].
  - rewrite Hk. by rewrite (proj2 (Nat.ltb_lt k (S k))) by lia.
  - replace (j <? S k) with (j <? k)
      by (destruct (Nat.ltb_spec j k), (Nat.ltb_spec j (S k)); lia || done).
    destruct (decide (j ∈ getElementsByClassName_in doc k "namespaceItem"))
      as [Hin|Hnin].
    + apply list_elem_of_In, In_getElementsByClassName_in in Hin
        as [Hitem [H1 H2]].
      rewrite Hitem. rewrite (proj2 (Nat.ltb_lt k j)) by done.
      rewrite (proj2 (Nat.leb_le j _)) by done.
      rewrite (proj2 (Nat.ltb_ge j k)) by lia.
      rewrite andb_false_r, orb_true_r. done.
    + simpl. destruct (has_class_at doc "namespaceItem" j) eqn:Hitem;
        [|by rewrite !andb_false_l].
      replace ((k <? j) && (j <=? k + descendants_at doc k)) with false;
        [by rewrite orb_false_r|].
      symmetry. apply not_true_is_false. intros Hr.
      apply andb_prop in Hr as [H1 H2].
      apply Nat.ltb_lt in H1. apply Nat.leb_le in H2.
      apply Hnin. apply list_elem_of_In, In_getElementsByClassName_in. done.
Qed.

(** Nothing is done for an element that is not a section. *)
Lemma settled_S_other (results : list string) (doc : Document) (k j : nat)
    (e : Element) :
  has_class_at doc "section" k = false ->
  settled results doc (S k) j e = settled results doc k j e.
Proof.
  intros Hk. unfold settled. rewrite under_section_S, Hk. simpl.
  rewrite orb_false_r. destruct (decide (j = k)) as [->|Hne].
  - by rewrite Hk.
  - by replace (j <? S k) with (j <? k)
      by (destruct (Nat.ltb_spec j k), (Nat.ltb_spec j (S k)); lia || done).
Qed.

Lemma Sectioned_prefix_lookup (results : list string) (doc : Document)
    (k : nat) :
  forall j : nat,
    foldl (Sectioned.section_step results) doc
          (List.filter (has_class_at doc "section") (seq 0 k)) !! j
    = settled results doc k j <$> doc !! j.
Proof.
  induction k as [|k IH]; intros j.
  - simpl. destruct (doc !! j); simpl; [|done]. by rewrite settled_0.
  - rewrite seq_S, List.filter_app, foldl_app.
    set (d := foldl (Sectioned.section_step results) doc
                (List.filter (has_class_at doc "section") (seq 0 k))) in *.
    assert (Hd : same_markup d doc).
    { apply (same_markup_pointwise (settled results doc k)); [|done].
      intros. apply markup_settled. }
    simpl. destruct (has_class_at doc "section" k) eqn:Hk; cbn [foldl].
    + rewrite section_step_lookup.
      rewrite (same_markup_section_display _ _ _ _ Hd),
              (same_markup_getElementsByClassName_in _ _ _ _ Hd), IH.
      destruct (doc !! j) as [e|]; simpl; [|by repeat case_decide].
      rewrite settled_S_section by done.
      repeat case_decide; try done.
      * by rewrite with_display_settled.
      * by rewrite show_or_hide_settled.
    + rewrite IH. destruct (doc !! j); simpl; [|done].
      by rewrite settled_S_other.
Qed.

Lemma Sectioned_reconcile_lookup (results : list string) (doc : Document)
    (j : nat) :
  Sectioned.reconcile results doc !! j
  = settled results doc (length doc) j <$> doc !! j.
Proof. apply Sectioned_prefix_lookup. Qed.

Lemma Sectioned_reconcile_same_markup (results : list string) (doc : Document) :
  same_markup (Sectioned.reconcile results doc) doc.
Proof.
  apply (same_markup_pointwise (settled results doc (length doc))).
  - intros. apply markup_settled.
  - apply Sectioned_reconcile_lookup.
Qed.

Lemma Sectioned_reconcile_twice (results : list string) (doc : Document) :
  Sectioned.reconcile results (Sectioned.reconcile results doc)
  = Sectioned.reconcile results doc.
Proof.
  pose proof (Sectioned_reconcile_same_markup results doc) as Hm.
  apply list_eq. intros j.
  rewrite (Sectioned_reconcile_lookup results (Sectioned.reconcile results doc)).
  rewrite (same_markup_length _ _ Hm).
  rewrite Sectioned_reconcile_lookup.
  destruct (doc !! j); simpl; [|done].
  by rewrite (same_markup_settled _ _ _ _ _ _ Hm), settled_twice.
Qed.

(** ** Which elements end up shown *)

Lemma filter_length_all {A : Type} (p : A -> bool) (l : list A) :
  length (List.filter p l) = length l <-> (forall x, In x l -> p x = true).
Proof.
  induction l as [|a l IH]; simpl; [done|].
  pose proof (List.filter_length_le p l) as Hle.
  destruct (p a) eqn:Ha; simpl.
  - split.
    + intros Hlen x [<-|Hx]; [done|]. apply IH; [lia | done].
    + intros Hall. f_equal. apply IH. auto.
  - split; [lia|]. intros Hall. specialize (Hall a (or_introl eq_refl)).
    congruence.
Qed.

Lemma lookup_settled (results : list string) (doc : Document) (j : nat)
    (e : Element) :
  Sectioned.reconcile results doc !! j = Some e ->
  exists e0, doc !! j = Some e0
             /\ e = settled results doc (length doc) j e0.
Proof.
  rewrite Sectioned_reconcile_lookup. destruct (doc !! j) as [e0|]; [|done].
  simpl. intros [= <-]. by exists e0.
Qed.

Lemma has_class_at_Some (doc : Document) (c : string) (j : nat) (e : Element) :
  doc !! j = Some e -> has_class_at doc c j = hasClass c e.
Proof. unfold has_class_at. by intros ->. Qed.

Lemma hasClass_settled (results : list string) (doc : Document) (k j : nat)
    (c : string) (e : Element) :
  hasClass c (settled results doc k j e) = hasClass c e.
Proof.
  unfold settled. destruct (_ && _); [done|]. by destruct (_ && _).
Qed.

(** A namespace item below a section that is not a section itself. *)
Lemma settled_item (results : list string) (doc : Document) (a j : nat)
    (e0 : Element) :
  doc !! j = Some e0 ->
  hasClass "namespaceItem" e0 = true ->
  hasClass "section" e0 = false ->
  has_class_at doc "section" a = true ->
  inside doc a j ->
  settled results doc (length doc) j e0
  = with_display (item_display results e0) e0.
Proof.
  intros Hj Hitem Hsec Ha Hin. unfold settled.
  rewrite !(has_class_at_Some _ _ _ _ Hj), Hitem, Hsec. simpl.
  replace (under_section doc (length doc) j) with true; [done|].
  symmetry. apply under_section_true. exists a.
  split; [by apply (has_class_at_lt _ "section") | done].
Qed.

(** A section. *)
Lemma settled_section (results : list string) (doc : Document) (j : nat)
    (e0 : Element) :
  doc !! j = Some e0 ->
  hasClass "section" e0 = true ->
  settled results doc (length doc) j e0
  = with_display (section_display results doc j) e0.
Proof.
  intros Hj Hsec. unfold settled.
  rewrite (has_class_at_Some _ _ _ _ Hj), Hsec. simpl.
  replace (j <? length doc) with true; [done|].
  symmetry. apply Nat.ltb_lt, lookup_lt_is_Some_1. by eexists.
Qed.


Lemma hidden_item_display (results : list string) (e : Element) :
  hidden (with_display (item_display results e) e)
  = negb (includes results (dataset_name e)).
Proof.
  rewrite hidden_with_display. unfold item_display.
  by destruct (includes _ _).
Qed.

(** C3, as stated, fails in the sectioned variant: on [sample_page] with the
    names [walk] and [loose] matched, the item [loose], which lies in no
    section, is a namespace item whose name is matched and which stays
    hidden, while the flat variant shows it; and on [nested_page] with
    [outer] matched, the item [outer], which is a section too, ends up
    hidden. *)
Lemma C3_item_outside_sections_stays_hidden :
  (let matched := ["walk"; "loose"]%string in
   exists e : Element,
     Sectioned.reconcile matched sample_page !! 3 = Some e
     /\ hasClass "namespaceItem" e = true
     /\ includes matched (dataset_name e) = true
     /\ visible e = false
     /\ (visible <$> Flat.reconcile matched sample_page !! 3) = Some true)
  /\ (let matched := ["outer"]%string in
      exists e : Element,
        Sectioned.reconcile matched nested_page !! 1 = Some e
        /\ hasClass "namespaceItem" e = true
        /\ includes matched (dataset_name e) = true
        /\ visible e = false).
Proof. split; eexists; repeat split. Qed.

(** C3 (amended): after the flat loop every namespace item is visible exactly
    when its name is among the matched names, so that no item is visible when
    nothing matched; after the sectioned loops the same holds for every
    namespace item that lies in a section and is not a section itself.  An
    element is a namespace item, or a section, when [getElementsByClassName]
    takes it for the class: by a class of that spelling, or in a document in
    quirks mode by one that differs in the case of ASCII letters only. *)
Theorem C3_reconcile_shows_exactly_the_matches
    (results : list string) (doc : Document) (i : nat) (e : Element) :
  (Flat.reconcile results doc !! i = Some e ->
   hasClass "namespaceItem" e = true ->
   visible e = includes results (dataset_name e)
   /\ (results = [] -> hidden e = true))
  /\ (Sectioned.reconcile results doc !! i = Some e ->
      hasClass "namespaceItem" e = true ->
      hasClass "section" e = false ->
      (exists a, has_class_at doc "section" a = true /\ inside doc a i) ->
      visible e = includes results (dataset_name e)
      /\ (results = [] -> hidden e = true)).
Proof.
  assert (Hempty : visible e = includes results (dataset_name e) ->
                   results = [] -> hidden e = true).
  { intros Hv ->. unfold visible in Hv. destruct (hidden e); [done|].
    by destruct (dataset_name e). }
  split.
  - intros Hi Hitem.
    assert (Hv : visible e = includes results (dataset_name e)); [|by auto].
    rewrite Flat_reconcile_lookup in Hi.
    destruct (doc !! i) as [e0|] eqn:H0;
      [|by destruct (has_class_at doc "namespaceItem" i)].
    assert (has_class_at doc "namespaceItem" i = true) as Hc.
    { rewrite (has_class_at_Some _ _ _ _ H0).
      destruct (has_class_at doc "namespaceItem" i); simplify_eq/=; [|done].
      by rewrite show_or_hide_display in Hitem. }
    rewrite Hc in Hi. simplify_eq/=.
    rewrite visible_show_or_hide. by rewrite show_or_hide_display.
  - intros Hi Hitem Hsec (a & Ha & Hin).
    apply lookup_settled in Hi as (e0 & H0 & ->).
    rewrite hasClass_settled in Hitem, Hsec.
    assert (Hv : visible (settled results doc (length doc) i e0)
                 = includes results
                     (dataset_name (settled results doc (length doc) i e0)));
      [|by auto].
    rewrite (settled_item results doc a i e0) by done.
    unfold visible. rewrite hidden_item_display. simpl.
    by rewrite negb_involutive.
Qed.

Lemma C3_reconcile_shows_exactly_the_matches_witness :
  exists e : Element,
    Sectioned.reconcile ["walk"]%string sample_page !! 2 = Some e
    /\ visible e = includes ["walk"]%string (dataset_name e)
    /\ visible e = false.
Proof.
  eexists. split; [reflexivity|]. split; [|reflexivity].
  match goal with
  | |- visible ?e = _ =>
      destruct (C3_reconcile_shows_exactly_the_matches
                  ["walk"]%string sample_page 2 e) as [_ Hsectioned]
  end.
  apply Hsectioned.
  - reflexivity.
  - reflexivity.
  - reflexivity.
  - exists 0. split; [reflexivity | unfold inside; vm_compute; lia].
Defined.

(** ** Sections *)

(** C4, as stated, fails on [nested_page] with [outer] matched: the outer
    section stays shown although both namespace items below it end up hidden,
    the first of them because it is a section too and all of its own items
    are hidden. *)
Lemma C4_section_shown_over_hidden_items :
  let doc := Sectioned.reconcile ["outer"]%string nested_page in
  getElementsByClassName_in doc 0 "namespaceItem" = [1; 2]
  /\ (hasClass "section" <$> doc !! 0) = Some true
  /\ (hidden <$> doc !! 0) = Some false
  /\ (hidden <$> doc !! 1) = Some true
  /\ (hidden <$> doc !! 2) = Some true.
Proof. repeat split. Qed.

(** C4 (amended): after the sectioned loops, a section none of whose
    namespace items is itself a section is hidden exactly when all the
    namespace items below it are hidden; sections and namespace items being
    the elements [getElementsByClassName] takes for these classes in the
    mode of the document. *)
Theorem C4_section_hidden_iff_all_items_hidden
    (results : list string) (doc : Document) (i : nat) (e : Element) :
  let doc' := Sectioned.reconcile results doc in
  doc' !! i = Some e ->
  hasClass "section" e = true ->
  (forall j, In j (getElementsByClassName_in doc' i "namespaceItem") ->
             has_class_at doc' "section" j = false) ->
  hidden e = true
  <-> (forall j ej, In j (getElementsByClassName_in doc' i "namespaceItem") ->
                    doc' !! j = Some ej -> hidden ej = true).
Proof.
  intros doc' Hi Hsec Hplain.
  pose proof (Sectioned_reconcile_same_markup results doc) as Hm.
  fold doc' in Hm.
  rewrite (same_markup_getElementsByClassName_in _ _ _ _ Hm) in *.
  apply lookup_settled in Hi as (e0 & H0 & ->).
  rewrite hasClass_settled in Hsec.
  rewrite (settled_section results doc i e0) by done.
  rewrite hidden_with_display.
  assert (Hitem : forall j ej,
             In j (getElementsByClassName_in doc i "namespaceItem") ->
             doc' !! j = Some ej ->
             hidden ej = negb (includes results (name_at doc j))).
  { intros j ej Hj Hej.
    pose proof (Hplain j Hj) as Hjsec.
    rewrite (same_markup_has_class_at _ _ _ _ Hm) in Hjsec.
    apply In_getElementsByClassName_in in Hj as [Hjitem Hjin].
    apply lookup_settled in Hej as (ej0 & Hj0 & ->).
    rewrite (has_class_at_Some _ _ _ _ Hj0) in Hjsec.
    rewrite (has_class_at_Some _ _ _ _ Hj0) in Hjitem.
    rewrite (settled_item results doc i j ej0); try done.
    - rewrite hidden_item_display. unfold name_at. by rewrite Hj0.
    - by rewrite (has_class_at_Some _ _ _ _ H0). }
  unfold section_display, hidden_below.
  destruct (_ =? _) eqn:Hcount.
  - apply Nat.eqb_eq in Hcount.
    pose proof (proj1 (filter_length_all _ _) Hcount) as Hall.
    split; [|done]. intros _ j ej Hj Hej.
    rewrite (Hitem j ej Hj Hej). by apply Hall.
  - apply Nat.eqb_neq in Hcount. split; [by intros ?%bool_decide_eq_true|].
    intros Hall. destruct Hcount. apply filter_length_all. intros j Hj.
    pose proof Hj as [Hjitem _]%In_getElementsByClassName_in.
    destruct (lookup_lt_is_Some_2 doc' j) as [ej Hej].
    { rewrite (same_markup_length _ _ Hm).
      by apply (has_class_at_lt _ "namespaceItem"). }
    rewrite <- (Hitem j ej Hj Hej). by apply (Hall j ej).
Qed.

Lemma C4_section_hidden_iff_all_items_hidden_witness :
  let doc' := Sectioned.reconcile ["loose"]%string sample_page in
  exists e : Element,
    doc' !! 0 = Some e
    /\ (hidden e = true
        <-> (forall j ej,
                In j (getElementsByClassName_in doc' 0 "namespaceItem") ->
                doc' !! j = Some ej -> hidden ej = true)).
Proof.
  eexists. split; [reflexivity|].
  apply (C4_section_hidden_iff_all_items_hidden ["loose"]%string sample_page 0).
  - reflexivity.
  - reflexivity.
  - intros j [<-|[<-|[]]]; reflexivity.
Defined.

(** ** Running the loops again *)

(** C5: running either variant of the loops twice in a row with the same
    matched names gives the document, and so the set of visible elements,
    that running them once gives. *)
Theorem C5_reconcile_idempotent (results : list string) (doc : Document) :
  (Flat.reconcile results (Flat.reconcile results doc)
   = Flat.reconcile results doc
   /\ visibleSet (Flat.reconcile results (Flat.reconcile results doc))
      = visibleSet (Flat.reconcile results doc))
  /\ (Sectioned.reconcile results (Sectioned.reconcile results doc)
      = Sectioned.reconcile results doc
      /\ visibleSet (Sectioned.reconcile results
                       (Sectioned.reconcile results doc))
         = visibleSet (Sectioned.reconcile results doc)).
Proof.
  by rewrite Flat_reconcile_twice, Sectioned_reconcile_twice.
Qed.

(** ** What the sectioned loops leave alone *)




(** ** The widget at work *)

(** With the content as a prop no request is sent, the document is published
    and the names of its namespace items are inserted; the index can then be
    queried. *)
Example mount_with_content :
  let st := mount failing_api parse_sample content_props Flat.initial in
  requests st = [] /\ console_error st = []
  /\ parsedSearchContent st = Some sample_page
  /\ db st = Some {| documents := [Some "walk"; Some "copy"; Some "loose"]%string |}
  /\ queryable st = true.
Proof. repeat split. Qed.

(** A query then hides what did not match, in either variant, and Enter
    without a selection goes nowhere. *)
Example query_after_mount :
  let mounted v := mount failing_api parse_sample content_props v in
  let flat :=
    Flat.run finds_walk content_props [Flat.Input "wal"; Flat.KeyUp "Enter"]
      (mounted Flat.initial) in
  let sectioned :=
    Sectioned.run finds_walk [Sectioned.Input "wal"]
      (mounted Sectioned.initial) in
  (map style_display <$> parsedSearchContent flat)
  = Some [None; None; Some "none"; Some "none"]%string
  /\ (map style_display <$> parsedSearchContent sectioned)
     = Some [None; None; Some "none"; Some "none"]%string
  /\ (visibleSet <$> parsedSearchContent sectioned) = Some [0; 1]
  /\ selectionIdx flat = (-1)%Z /\ location_href flat = None
  /\ showResults sectioned = true /\ searchCounter sectioned = 1.
Proof. repeat split. Qed.

(** ** Class names and the mode of the document *)

(** Outside quirks mode a class is matched character by character. *)
Lemma hasClass_no_quirks (c : string) (e : Element) :
  quirks e = false -> hasClass c e = bool_decide (c ∈ classList e).
Proof. intros Hq. unfold hasClass. by rewrite Hq. Qed.

(** In quirks mode a class is matched up to the case of its ASCII letters. *)
Lemma hasClass_quirks (c : string) (e : Element) :
  quirks e = true ->
  hasClass c e = true
  <-> exists x, x ∈ classList e /\ ascii_toLowerCase c = ascii_toLowerCase x.
Proof.
  intros Hq. unfold hasClass. rewrite Hq, existsb_exists.
  unfold ascii_case_insensitive_match.
  split; intros (x & Hx & Heq); exists x.
  - apply bool_decide_eq_true in Heq. by rewrite list_elem_of_In.
  - rewrite <- list_elem_of_In. split; [done|]. by apply bool_decide_eq_true.
Qed.

(** A class spelled as asked for is matched in either mode. *)
Lemma hasClass_same_spelling (c : string) (e : Element) :
  c ∈ classList e -> hasClass c e = true.
Proof.
  intros Hc. destruct (quirks e) eqn:Hq.
  - apply hasClass_quirks; [done|]. by exists c.
  - rewrite hasClass_no_quirks by done. by apply bool_decide_eq_true.
Qed.

(** The classes [Section], [namespaceitem] and [NAMESPACEITEM] are those of
    a section and of namespace items in the document of a text without a
    doctype, and of nothing the component looks for after a doctype. *)
Example classes_by_mode :
  getElementsByClassName quirks_page "section" = [0]
  /\ getElementsByClassName quirks_page "namespaceItem" = [1; 2]
  /\ getElementsByClassName_in quirks_page 0 "namespaceItem" = [1; 2]
  /\ getElementsByClassName no_quirks_page "section" = []
  /\ getElementsByClassName no_quirks_page "namespaceItem" = [].
Proof. repeat split. Qed.

(** So a query restyles the first document, in either variant, and leaves
    the second as it is; and the effect indexes the names of the first and
    none of the second. *)
Example reconcile_by_mode :
  (hidden <$> Flat.reconcile ["walk"] quirks_page) = [false; false; true]
  /\ (hidden <$> Sectioned.reconcile ["walk"] quirks_page)
     = [false; false; true]
  /\ (hidden <$> Sectioned.reconcile ["copy"] quirks_page)
     = [false; true; false]
  /\ (hidden <$> Sectioned.reconcile [] quirks_page) = [true; true; true]
  /\ Flat.reconcile [] no_quirks_page = no_quirks_page
  /\ Sectioned.reconcile [] no_quirks_page = no_quirks_page.
Proof. repeat split. Qed.

Example index_by_mode :
  (documents <$> db (mount failing_api parse_quirks content_props
                           Flat.initial))
  = Some [Some "walk"; Some "copy"]%string
  /\ (documents <$> db (mount failing_api parse_no_quirks content_props
                              Flat.initial))
     = Some [].
Proof. repeat split. Qed.

(** A namespace item of class [Section] is a section too in quirks mode: the
    one named [walk], with no items below it, ends up hidden by a query that
    matches it, and the one without a name is shown for the matched item
    below it.  After a doctype neither is a section, and they are shown and
    hidden as namespace items are. *)
Example capital_section_by_mode :
  getElementsByClassName (document_of true capital_section) "section"
  = [0; 1; 2]
  /\ (hidden <$> Sectioned.reconcile ["walk"]
                   (document_of true capital_section))
     = [false; true; false; false]
  /\ getElementsByClassName (document_of false capital_section) "section"
     = [0]
  /\ (hidden <$> Sectioned.reconcile ["walk"]
                   (document_of false capital_section))
     = [false; false; true; false].
Proof. repeat split. Qed.

(** ** More about the tokenizer *)

Lemma concat_empty_cons (x : string) (l : list string) :
  String.concat "" (x :: l) = x +:+ String.concat "" l.
Proof.
  destruct l as [|y l]; simpl; [by rewrite string_app_empty_r | reflexivity].
Qed.

Lemma concat_pieces (rest : string) :
  forall cur : string, String.concat "" (pieces cur rest) = cur +:+ rest.
Proof.
  induction rest as [|c rest IH]; intros cur;
    [simpl; by rewrite string_app_empty_r|].
  simpl pieces. destruct (isAZ c).
  - destruct cur as [|x cur]; simpl nonempty; cbv iota.
    + by rewrite IH.
    + by rewrite concat_empty_cons, IH.
  - by rewrite IH, string_app_assoc.
Qed.

Lemma ascii_toLowerCase_app (a b : string) :
  ascii_toLowerCase (a +:+ b) = ascii_toLowerCase a +:+ ascii_toLowerCase b.
Proof.
  induction a as [|x a IH]; [done|].
  rewrite string_app_cons. simpl. by rewrite IH.
Qed.

Lemma concat_map_ascii_toLowerCase (l : list string) :
  String.concat "" (map ascii_toLowerCase l)
  = ascii_toLowerCase (String.concat "" l).
Proof.
  induction l as [|x l IH]; [done|].
  cbn [map]. by rewrite !concat_empty_cons, ascii_toLowerCase_app, IH.
Qed.

Lemma isAZ_toLowerCase_char (c : ascii) : isAZ (toLowerCase_char c) = false.
Proof. by destruct c as [[] [] [] [] [] [] [] []]. Qed.

Lemma is_ascii_toLowerCase_char (c : ascii) :
  is_ascii_char (toLowerCase_char c) = is_ascii_char c.
Proof. by destruct c as [[] [] [] [] [] [] [] []]. Qed.

Lemma has_AZ_ascii_toLowerCase (s : string) :
  has_AZ (ascii_toLowerCase s) = false.
Proof.
  induction s as [|c s IH]; [done|]. simpl.
  by rewrite isAZ_toLowerCase_char, IH.
Qed.

Lemma is_ascii_ascii_toLowerCase (s : string) :
  is_ascii (ascii_toLowerCase s) = is_ascii s.
Proof.
  induction s as [|c s IH]; [done|]. simpl.
  by rewrite is_ascii_toLowerCase_char, IH.
Qed.

Lemma ascii_toLowerCase_without_AZ (s : string) :
  has_AZ s = false -> ascii_toLowerCase s = s.
Proof.
  induction s as [|c s IH]; [done|]. simpl.
  intros [Hc Hs]%orb_false_elim. unfold toLowerCase_char.
  by rewrite Hc, IH.
Qed.

(** On a string of ASCII characters [toLowerCase] does not ask the engine. *)
Lemma toLowerCase_ascii (u : string -> string) (s : string) :
  is_ascii s = true -> toLowerCase u s = ascii_toLowerCase s.
Proof. intros Hs. unfold toLowerCase. by rewrite Hs. Qed.

Lemma is_ascii_app (a b : string) :
  is_ascii (a +:+ b) = is_ascii a && is_ascii b.
Proof.
  induction a as [|x a IH]; [done|].
  rewrite string_app_cons. simpl. by rewrite IH, andb_assoc.
Qed.

(** The pieces of a string of ASCII characters are such strings. *)
Lemma is_ascii_pieces (rest : string) :
  forall cur : string,
    is_ascii cur = true -> is_ascii rest = true ->
    Forall (fun piece => is_ascii piece = true) (pieces cur rest).
Proof.
  induction rest as [|c rest IH]; intros cur Hcur Hrest.
  - by constructor.
  - simpl in Hrest. apply andb_true_iff in Hrest as [Hc Hrest].
    assert (Hone : is_ascii (String c EmptyString) = true)
      by (simpl; by rewrite Hc).
    simpl pieces. destruct (isAZ c).
    + destruct (nonempty cur); [constructor; [done|]|]; by apply IH.
    + apply IH; [|done]. by rewrite is_ascii_app, Hcur, Hone.
Qed.

Lemma map_toLowerCase_ascii (u : string -> string) (l : list string) :
  Forall (fun piece => is_ascii piece = true) l ->
  map (toLowerCase u) l = map ascii_toLowerCase l.
Proof.
  induction 1 as [|x l Hx _ IH]; [done|].
  simpl. by rewrite toLowerCase_ascii, IH.
Qed.

Lemma pieces_without_AZ (rest : string) :
  forall cur : string, has_AZ rest = false -> pieces cur rest = [cur +:+ rest].
Proof.
  induction rest as [|c rest IH]; intros cur Hno.
  - by rewrite string_app_empty_r.
  - simpl in Hno. apply orb_false_elim in Hno as [Hc Hrest].
    simpl. by rewrite Hc, IH, string_app_assoc.
Qed.

Lemma length_pieces (rest : string) :
  forall cur : string,
    length (pieces cur rest)
    = count_AZ rest + (if nonempty cur || negb (starts_AZ rest) then 1 else 0).
Proof.
  induction rest as [|c rest IH]; intros cur.
  - simpl. by rewrite orb_true_r.
  - simpl. destruct (isAZ c); simpl.
    + destruct (nonempty cur); simpl; rewrite IH; simpl; lia.
    + rewrite IH. rewrite orb_true_r.
      replace (nonempty (cur +:+ String c EmptyString)) with true
        by (by destruct cur). simpl. lia.
Qed.

Lemma tokenize_name
    (u : string -> string)
    (default_tokenize : string -> option string -> option string -> list string)
    (raw : string) (lang : option string) :
  tokenize u default_tokenize raw lang (Some "name"%string)
  = map (toLowerCase u) (pieces EmptyString raw).
Proof.
  unfold tokenize. rewrite bool_decide_eq_true_2 by done.
  by rewrite split_AZ_pieces.
Qed.

Lemma tokenize_without_AZ
    (u : string -> string)
    (default_tokenize : string -> option string -> option string -> list string)
    (s : string) (lang : option string) :
  has_AZ s = false ->
  tokenize u default_tokenize s lang (Some "name"%string)
  = [toLowerCase u s].
Proof.
  intros Hno. by rewrite tokenize_name, pieces_without_AZ.
Qed.

Lemma tokenize_ascii_without_AZ
    (u : string -> string)
    (default_tokenize : string -> option string -> option string -> list string)
    (s : string) (lang : option string) :
  has_AZ s = false -> is_ascii s = true ->
  tokenize u default_tokenize s lang (Some "name"%string) = [s].
Proof.
  intros Hno Hs. rewrite tokenize_without_AZ by done.
  by rewrite toLowerCase_ascii, ascii_toLowerCase_without_AZ.
Qed.

(** X1: the split loses no character and adds none: the pieces a name is
    cut into, which the tokens are the lowercase forms of, join to the name
    again; and the tokens of a name of ASCII characters join to the name in
    lower case. *)
Theorem X1_tokens_join_to_the_lowercased_name
    (unicode_toLowerCase : string -> string)
    (default_tokenize : string -> option string -> option string -> list string)
    (raw : string) (lang : option string) :
  tokenize unicode_toLowerCase default_tokenize raw lang (Some "name"%string)
  = map (toLowerCase unicode_toLowerCase) (split_AZ raw)
  /\ String.concat "" (split_AZ raw) = raw
  /\ (is_ascii raw = true ->
      String.concat ""
        (tokenize unicode_toLowerCase default_tokenize raw lang
                  (Some "name"%string))
      = toLowerCase unicode_toLowerCase raw).
Proof.
  split; [|split].
  - unfold tokenize. by rewrite bool_decide_eq_true_2.
  - by rewrite split_AZ_pieces, concat_pieces.
  - intros Hraw. rewrite tokenize_name.
    rewrite map_toLowerCase_ascii by (by apply is_ascii_pieces).
    rewrite concat_map_ascii_toLowerCase, concat_pieces.
    by rewrite toLowerCase_ascii.
Qed.

Lemma X1_tokens_join_to_the_lowercased_name_witness :
  String.concat ""
    (tokenize latin1_toLowerCase (fun _ _ _ => [])
              "getElementById" None (Some "name"%string))
  = toLowerCase latin1_toLowerCase "getElementById".
Proof.
  apply (X1_tokens_join_to_the_lowercased_name
           latin1_toLowerCase (fun _ _ _ => []) "getElementById" None).
  reflexivity.
Defined.

(** X2: a name has one token for each of its letters of [A-Z], and one more
    when it is empty or starts with another character. *)
Theorem X2_token_count
    (unicode_toLowerCase : string -> string)
    (default_tokenize : string -> option string -> option string -> list string)
    (raw : string) (lang : option string) :
  length (tokenize unicode_toLowerCase default_tokenize raw lang
                   (Some "name"%string))
  = count_AZ raw + (if starts_AZ raw then 0 else 1).
Proof.
  rewrite tokenize_name, length_map, length_pieces. simpl.
  by destruct (starts_AZ raw).
Qed.

(** X3: no token of a name of ASCII characters holds a letter of [A-Z], and
    every such token tokenizes to itself. *)
Theorem X3_tokens_are_stable
    (unicode_toLowerCase : string -> string)
    (default_tokenize : string -> option string -> option string -> list string)
    (raw : string) (lang : option string) (t : string) :
  is_ascii raw = true ->
  In t (tokenize unicode_toLowerCase default_tokenize raw lang
                 (Some "name"%string)) ->
  has_AZ t = false
  /\ tokenize unicode_toLowerCase default_tokenize t lang
              (Some "name"%string) = [t].
Proof.
  intros Hraw. rewrite tokenize_name.
  rewrite map_toLowerCase_ascii by (by apply is_ascii_pieces).
  intros (piece & <- & Hin)%in_map_iff.
  assert (Hpiece : is_ascii piece = true).
  { pose proof (is_ascii_pieces raw EmptyString eq_refl Hraw) as Hall.
    rewrite Forall_forall in Hall. apply Hall. by apply list_elem_of_In. }
  assert (Hno : has_AZ (ascii_toLowerCase piece) = false)
    by apply has_AZ_ascii_toLowerCase.
  split; [done|]. apply tokenize_ascii_without_AZ; [done|].
  by rewrite is_ascii_ascii_toLowerCase.
Qed.

Lemma X3_tokens_are_stable_witness :
  has_AZ "server" = false
  /\ tokenize latin1_toLowerCase (fun _ _ _ => []) "server" None
              (Some "name"%string)
     = ["server"%string].
Proof.
  apply (X3_tokens_are_stable latin1_toLowerCase (fun _ _ _ => [])
                              "HTTPServer" None "server").
  - reflexivity.
  - vm_compute. auto 10.
Defined.

(** X4: a name without a letter of [A-Z] is not split: it is one token, its
    lowercase form, and that is the name itself when its characters are
    those of ASCII, also when it is empty. *)
Theorem X4_lowercase_names_are_one_token
    (unicode_toLowerCase : string -> string)
    (default_tokenize : string -> option string -> option string -> list string)
    (s : string) (lang : option string) :
  has_AZ s = false ->
  tokenize unicode_toLowerCase default_tokenize s lang (Some "name"%string)
  = [toLowerCase unicode_toLowerCase s]
  /\ (is_ascii s = true ->
      tokenize unicode_toLowerCase default_tokenize s lang
               (Some "name"%string) = [s]).
Proof.
  intros Hno. split; [by apply tokenize_without_AZ|].
  intros Hs. by apply tokenize_ascii_without_AZ.
Qed.

Lemma X4_lowercase_names_are_one_token_witness :
  tokenize latin1_toLowerCase (fun _ _ _ => []) "read_file2" None
           (Some "name"%string)
  = ["read_file2"%string].
Proof.
  apply (X4_lowercase_names_are_one_token
           latin1_toLowerCase (fun _ _ _ => []) "read_file2" None);
    reflexivity.
Defined.

(** ** More about mounting *)

(** The names of the elements of a class, read through their indices, are
    the names read off the elements themselves. *)
Lemma names_of_class_from (c : string) (l : Document) :
  forall pre : Document,
    map (name_at (pre ++ l))
        (List.filter (has_class_at (pre ++ l) c) (seq (length pre) (length l)))
    = map dataset_name (List.filter (hasClass c) l).
Proof.
  induction l as [|e l IH]; intros pre; [done|].
  cbn [length seq List.filter].
  assert (Hat : (pre ++ e :: l) !! length pre = Some e)
    by (by apply list_lookup_middle).
  unfold has_class_at at 1. rewrite Hat.
  specialize (IH (pre ++ [e])).
  rewrite <- app_assoc, length_app in IH. cbn [app length] in IH.
  rewrite Nat.add_1_r in IH.
  destruct (hasClass c e); cbn [map]; rewrite IH; [|done].
  unfold name_at at 1. by rewrite Hat.
Qed.

Lemma names_of_class (c : string) (doc : Document) :
  map (name_at doc) (getElementsByClassName doc c)
  = map dataset_name (List.filter (hasClass c) doc).
Proof. apply (names_of_class_from c doc []). Qed.

Lemma mount_with_prop (api_get : Request -> APIResponse)
    (parseFromString : string -> Document) (props : LocalSymbolSearchProps)
    (st : State) (c : string) :
  content props = Some c -> truthy c = true ->
  mount api_get parseFromString props st
  = publish parseFromString create c st.
Proof. intros Hc Ht. unfold mount, truthy_opt. by rewrite Hc, Ht. Qed.

Lemma mount_with_response (api_get : Request -> APIResponse)
    (parseFromString : string -> Document) (props : LocalSymbolSearchProps)
    (st : State) (c : string) :
  truthy_opt (content props) = false ->
  api_get (search_request props) = APIResponseOk c ->
  mount api_get parseFromString props st
  = publish parseFromString create c (send (search_request props) st).
Proof. intros Hc Hresp. unfold mount. by rewrite Hc, Hresp. Qed.

(** Whatever the response, a database is published only together with a
    document, and nothing already published is withdrawn. *)
Lemma mount_published (api_get : Request -> APIResponse)
    (parseFromString : string -> Document) (props : LocalSymbolSearchProps)
    (st : State) :
  let st' := mount api_get parseFromString props st in
  (db st' = db st /\ parsedSearchContent st' = parsedSearchContent st)
  \/ (is_Some (db st') /\ is_Some (parsedSearchContent st')).
Proof.
  cbv zeta. unfold mount. destruct (negb _).
  - destruct (api_get _); [right | left]; by eauto.
  - right. by eauto.
Qed.

(** X5: the effect sends a request exactly when the [content] prop is
    missing or empty, and then a single one, for the scope and package of the
    props and for the version of the props or for [latest] when that is
    empty; with a non-empty [content] nothing is sent or logged and the
    server plays no part. *)
Theorem X5_mount_request_policy
    (api_get : Request -> APIResponse) (parseFromString : string -> Document)
    (props : LocalSymbolSearchProps) (st : State) :
  (truthy_opt (content props) = true ->
   requests (mount api_get parseFromString props st) = requests st
   /\ console_error (mount api_get parseFromString props st)
      = console_error st
   /\ forall api_get' : Request -> APIResponse,
        mount api_get' parseFromString props st
        = mount api_get parseFromString props st)
  /\ (truthy_opt (content props) = false ->
      exists rq : Request,
        requests (mount api_get parseFromString props st)
        = requests st ++ [rq]
        /\ req_scope rq = scope props /\ req_pkg rq = pkg props
        /\ req_version rq
           = if bool_decide (version props = ""%string) then "latest"%string
             else version props).
Proof.
  split; intros Hc.
  - unfold mount. by rewrite Hc.
  - exists (search_request props). split.
    + unfold mount. rewrite Hc. simpl. by destruct (api_get _).
    + repeat split. unfold search_request, truthy. simpl.
      by destruct (version props).
Qed.

Lemma X5_mount_request_policy_witness :
  requests (mount failing_api parse_sample content_props Flat.initial) = []
  /\ requests (mount serving_api parse_sample empty_content_props Flat.initial)
     = [{| req_scope := "std"; req_pkg := "fs"; req_version := "latest" |}].
Proof.
  split.
  - destruct (X5_mount_request_policy failing_api parse_sample content_props
                Flat.initial) as [Hprop _].
    destruct Hprop as (Hreq & _); [reflexivity | exact Hreq].
  - destruct (X5_mount_request_policy serving_api parse_sample
                empty_content_props Flat.initial) as [_ Hfetch].
    destruct Hfetch as (rq & Hreq & Hs & Hp & Hv); [reflexivity|].
    rewrite Hreq. destruct rq; simpl in *. by subst.
Defined.

(** X6: when the content is there, as a non-empty prop or as the data of an
    ok response, the effect publishes its parsed document and a database,
    the index can be queried, nothing is logged, and the result list and the
    selection are as before. *)
Theorem X6_mount_publishes
    (api_get : Request -> APIResponse) (parseFromString : string -> Document)
    (props : LocalSymbolSearchProps) (st : State) (c : string) :
  (content props = Some c /\ truthy c = true)
  \/ (truthy_opt (content props) = false
      /\ api_get (search_request props) = APIResponseOk c) ->
  let st' := mount api_get parseFromString props st in
  parsedSearchContent st' = Some (parseFromString c)
  /\ is_Some (db st') /\ queryable st' = true
  /\ console_error st' = console_error st
  /\ results st' = results st /\ selectionIdx st' = selectionIdx st
  /\ showResults st' = showResults st /\ location_href st' = location_href st.
Proof.
  intros [[Hc Ht] | [Hc Hresp]]; cbv zeta.
  - rewrite (mount_with_prop _ _ _ _ c) by done. repeat split; by eauto.
  - rewrite (mount_with_response _ _ _ _ c) by done. repeat split; by eauto.
Qed.

Lemma X6_mount_publishes_witness :
  let st' := mount serving_api parse_sample empty_content_props
               Sectioned.initial in
  parsedSearchContent st' = Some sample_page /\ queryable st' = true.
Proof.
  destruct (X6_mount_publishes serving_api parse_sample empty_content_props
              Sectioned.initial "<section>") as (Hdoc & _ & Hq & _).
  - right. split; reflexivity.
  - split; [exact Hdoc | exact Hq].
Defined.

(** X7: the database the effect publishes holds, in tree order, the
    [data-name] of every element of the parsed document that
    [getElementsByClassName] takes for the class [namespaceItem] in the mode
    of the document (in quirks mode whatever the case of the ASCII letters
    of its class), an item without the attribute included as an entry
    without a name, and nothing else. *)
Theorem X7_index_holds_the_item_names
    (api_get : Request -> APIResponse) (parseFromString : string -> Document)
    (props : LocalSymbolSearchProps) (st : State) (c : string) :
  (content props = Some c /\ truthy c = true)
  \/ (truthy_opt (content props) = false
      /\ api_get (search_request props) = APIResponseOk c) ->
  documents <$> db (mount api_get parseFromString props st)
  = Some (map dataset_name
              (List.filter (hasClass "namespaceItem") (parseFromString c))).
Proof.
  intros [[Hc Ht] | [Hc Hresp]].
  - rewrite (mount_with_prop _ _ _ _ c) by done. simpl.
    by rewrite names_of_class.
  - rewrite (mount_with_response _ _ _ _ c) by done. simpl.
    by rewrite names_of_class.
Qed.

Lemma X7_index_holds_the_item_names_witness :
  documents <$> db (mount failing_api parse_quirks content_props Flat.initial)
  = Some [Some "walk"; Some "copy"]%string.
Proof.
  apply (X7_index_holds_the_item_names failing_api parse_quirks content_props
           Flat.initial "<section>").
  left. split; reflexivity.
Defined.

(** ** More about the reconciling loops *)

Lemma includes_same_names (A B : list string) (x : option string) :
  (forall n, n ∈ A <-> n ∈ B) -> includes A x = includes B x.
Proof.
  intros Hsame. destruct x as [n|]; [|done]. simpl.
  apply bool_decide_ext, Hsame.
Qed.

Lemma includes_more_names (A B : list string) (x : option string) :
  (forall n, n ∈ A -> n ∈ B) -> includes A x = true -> includes B x = true.
Proof.
  intros Hsub. destruct x as [n|]; [|done]. simpl.
  rewrite !bool_decide_eq_true. apply Hsub.
Qed.

Lemma show_or_hide_absorbs (A B : list string) (e : Element) :
  Flat.show_or_hide B (Flat.show_or_hide A e) = Flat.show_or_hide B e.
Proof. by rewrite !show_or_hide_display. Qed.

Lemma Flat_reconcile_absorbs (A B : list string) (doc : Document) :
  Flat.reconcile B (Flat.reconcile A doc) = Flat.reconcile B doc.
Proof.
  apply list_eq. intros j.
  rewrite (Flat_reconcile_lookup B (Flat.reconcile A doc)).
  rewrite Flat_reconcile_has_class_at, !Flat_reconcile_lookup.
  destruct (has_class_at doc "namespaceItem" j); [|done].
  destruct (doc !! j) as [e|]; [|done]. simpl.
  by rewrite show_or_hide_absorbs.
Qed.

Lemma Flat_reconcile_same_markup (results : list string) (doc : Document) :
  same_markup (Flat.reconcile results doc) doc.
Proof.
  apply (same_markup_pointwise
           (fun j e => if has_class_at doc "namespaceItem" j
                       then Flat.show_or_hide results e else e)).
  - intros j e. destruct (has_class_at doc "namespaceItem" j); [|done].
    by rewrite show_or_hide_display.
  - intros j. rewrite Flat_reconcile_lookup.
    destruct (has_class_at doc "namespaceItem" j); [done|].
    by destruct (doc !! j).
Qed.

Lemma settled_absorbs (A B : list string) (doc : Document) (k j : nat)
    (e : Element) :
  settled B doc k j (settled A doc k j e) = settled B doc k j e.
Proof.
  unfold settled. destruct (_ && _); [done|]. by destruct (_ && _).
Qed.

Lemma Sectioned_reconcile_absorbs (A B : list string) (doc : Document) :
  Sectioned.reconcile B (Sectioned.reconcile A doc) = Sectioned.reconcile B doc.
Proof.
  pose proof (Sectioned_reconcile_same_markup A doc) as Hm.
  apply list_eq. intros j.
  rewrite (Sectioned_reconcile_lookup B (Sectioned.reconcile A doc)).
  rewrite (same_markup_length _ _ Hm), !Sectioned_reconcile_lookup.
  destruct (doc !! j); simpl; [|done].
  by rewrite (same_markup_settled _ _ _ _ _ _ Hm), settled_absorbs.
Qed.

Lemma same_markup_map {B : Type} (f : Element -> B) (d doc : Document) :
  (forall e, f (markup e) = f e) ->
  same_markup d doc -> map f d = map f doc.
Proof.
  intros Hf Hm. apply list_eq. intros j.
  change (map f d) with (f <$> d). change (map f doc) with (f <$> doc).
  rewrite !list_lookup_fmap.
  pose proof (same_markup_lookup _ _ j Hm) as Hj.
  destruct (d !! j) as [e|], (doc !! j) as [e0|]; try done.
  apply (inj Some) in Hj. simpl. f_equal.
  rewrite <- (Hf e), <- (Hf e0). by rewrite Hj.
Qed.

Lemma same_markup_fields (d doc : Document) :
  same_markup d doc ->
  length d = length doc
  /\ map classList d = map classList doc
  /\ map dataset_name d = map dataset_name doc
  /\ map descendants d = map descendants doc.
Proof.
  intros Hm. split; [by apply same_markup_length|].
  repeat split; by apply same_markup_map.
Qed.

Lemma same_markup_collection (d doc : Document) (c : string) :
  same_markup d doc ->
  getElementsByClassName d c = getElementsByClassName doc c.
Proof.
  intros H. unfold getElementsByClassName.
  rewrite (same_markup_length _ _ H). apply filter_ext.
  intros j. by apply same_markup_has_class_at.
Qed.

(** X8: either variant of the loops changes styles only: the document keeps
    its length, and every element its classes, its [data-name] and its
    descendants, so that every collection by class name is the same before
    and after. *)
Theorem X8_reconcile_keeps_the_markup (results : list string) (doc : Document) :
  (let doc' := Flat.reconcile results doc in
   length doc' = length doc
   /\ map classList doc' = map classList doc
   /\ map dataset_name doc' = map dataset_name doc
   /\ map descendants doc' = map descendants doc
   /\ forall c, getElementsByClassName doc' c = getElementsByClassName doc c)
  /\ (let doc' := Sectioned.reconcile results doc in
      length doc' = length doc
      /\ map classList doc' = map classList doc
      /\ map dataset_name doc' = map dataset_name doc
      /\ map descendants doc' = map descendants doc
      /\ forall c, getElementsByClassName doc' c = getElementsByClassName doc c).
Proof.
  split; cbv zeta.
  - pose proof (Flat_reconcile_same_markup results doc) as Hm.
    destruct (same_markup_fields _ _ Hm) as (? & ? & ? & ?).
    repeat split; try done. intros c. by apply same_markup_collection.
  - pose proof (Sectioned_reconcile_same_markup results doc) as Hm.
    destruct (same_markup_fields _ _ Hm) as (? & ? & ? & ?).
    repeat split; try done. intros c. by apply same_markup_collection.
Qed.

(** X9: the last query wins: running the loops for the names [B] after
    running them for the names [A] gives the document that running them for
    [B] alone gives, in either variant. *)
Theorem X9_reconcile_forgets_the_previous_query
    (A B : list string) (doc : Document) :
  Flat.reconcile B (Flat.reconcile A doc) = Flat.reconcile B doc
  /\ Sectioned.reconcile B (Sectioned.reconcile A doc)
     = Sectioned.reconcile B doc.
Proof.
  split; [apply Flat_reconcile_absorbs | apply Sectioned_reconcile_absorbs].
Qed.

Lemma Flat_reconcile_same_names (A B : list string) (doc : Document) :
  (forall n, n ∈ A <-> n ∈ B) ->
  Flat.reconcile A doc = Flat.reconcile B doc.
Proof.
  intros Hsame. apply list_eq. intros j. rewrite !Flat_reconcile_lookup.
  destruct (has_class_at doc "namespaceItem" j); [|done].
  destruct (doc !! j) as [e|]; [|done]. simpl.
  unfold Flat.show_or_hide. by rewrite (includes_same_names A B).
Qed.

Lemma settled_same_names (A B : list string) (doc : Document) (k j : nat)
    (e : Element) :
  (forall n, n ∈ A <-> n ∈ B) ->
  settled A doc k j e = settled B doc k j e.
Proof.
  intros Hsame. unfold settled, section_display, hidden_below, item_display.
  rewrite (includes_same_names A B) by done.
  rewrite (filter_ext (fun j => negb (includes A (name_at doc j)))
                      (fun j => negb (includes B (name_at doc j)))); [done|].
  intros i. by rewrite (includes_same_names A B).
Qed.

(** X10: the loops look at which names matched, not at how the hits list
    them: two lists with the same members, in whatever order and however
    often repeated, give the same document in either variant. *)
Theorem X10_reconcile_depends_on_the_set_of_names
    (A B : list string) (doc : Document) :
  (forall n, n ∈ A <-> n ∈ B) ->
  Flat.reconcile A doc = Flat.reconcile B doc
  /\ Sectioned.reconcile A doc = Sectioned.reconcile B doc.
Proof.
  intros Hsame. split; [by apply Flat_reconcile_same_names|].
  apply list_eq. intros j. rewrite !Sectioned_reconcile_lookup.
  destruct (doc !! j); simpl; [|done].
  by rewrite (settled_same_names A B).
Qed.

Lemma X10_reconcile_depends_on_the_set_of_names_witness :
  Flat.reconcile hits_once sample_page = Flat.reconcile hits_twice sample_page
  /\ Sectioned.reconcile hits_once sample_page
     = Sectioned.reconcile hits_twice sample_page.
Proof.
  apply (X10_reconcile_depends_on_the_set_of_names hits_once hits_twice
           sample_page).
  intros n. unfold hits_once, hits_twice.
  rewrite !elem_of_cons, !elem_of_nil. tauto.
Defined.

(** X11: the flat loop leaves alone every element that
    [getElementsByClassName] does not take for the class [namespaceItem] in
    the mode of the document, whatever its other classes, its name or its
    style. *)
Theorem X11_flat_reconcile_touches_items_only
    (results : list string) (doc : Document) (j : nat) :
  has_class_at doc "namespaceItem" j = false ->
  Flat.reconcile results doc !! j = doc !! j.
Proof. intros Hc. by rewrite Flat_reconcile_lookup, Hc. Qed.

Lemma X11_flat_reconcile_touches_items_only_witness :
  Flat.reconcile ["walk"]%string plain_page !! 5 = plain_page !! 5
  /\ (dataset_name <$> plain_page !! 5) = Some (Some "walk"%string).
Proof.
  split; [|reflexivity].
  apply (X11_flat_reconcile_touches_items_only ["walk"]%string plain_page 5).
  reflexivity.
Defined.

(** X12: a namespace item without a [data-name] attribute is hidden by every
    query: by the flat loop wherever it is, by the sectioned loops when it
    lies in a section and is not a section itself (in quirks mode, has no
    class that reads [section] in any case of its letters). *)
Theorem X12_items_without_a_name_are_hidden
    (results : list string) (doc : Document) (j : nat) (e : Element) :
  doc !! j = Some e ->
  hasClass "namespaceItem" e = true ->
  dataset_name e = None ->
  (hidden <$> Flat.reconcile results doc !! j) = Some true
  /\ (hasClass "section" e = false ->
      (exists a, has_class_at doc "section" a = true /\ inside doc a j) ->
      (hidden <$> Sectioned.reconcile results doc !! j) = Some true).
Proof.
  intros Hj Hitem Hname. split.
  - rewrite Flat_reconcile_lookup, (has_class_at_Some _ _ _ _ Hj), Hitem, Hj.
    simpl. rewrite show_or_hide_display, hidden_item_display. by rewrite Hname.
  - intros Hsec (a & Ha & Hin).
    rewrite Sectioned_reconcile_lookup, Hj. simpl.
    rewrite (settled_item results doc a j e) by done.
    rewrite hidden_item_display. by rewrite Hname.
Qed.

Lemma X12_items_without_a_name_are_hidden_witness :
  (hidden <$> Flat.reconcile ["walk"]%string plain_page !! 2) = Some true
  /\ (hidden <$> Sectioned.reconcile ["walk"]%string plain_page !! 2)
     = Some true.
Proof.
  destruct (X12_items_without_a_name_are_hidden ["walk"]%string plain_page 2
              {| classList := ["namespaceItem"%string]; dataset_name := None;
                 style_display := None; descendants := 0; quirks := true |})
    as [Hflat Hsectioned]; try reflexivity.
  split; [exact Hflat|]. apply Hsectioned; [reflexivity|].
  exists 1. split; [reflexivity | unfold inside; vm_compute; lia].
Defined.

(** X13: a section that [getElementsByClassName] finds no namespace items
    below, in the mode of the document, is hidden by every query, also by
    one that matches every name. *)
Theorem X13_sections_without_items_are_hidden
    (results : list string) (doc : Document) (i : nat) (e : Element) :
  doc !! i = Some e ->
  hasClass "section" e = true ->
  getElementsByClassName_in doc i "namespaceItem" = [] ->
  (hidden <$> Sectioned.reconcile results doc !! i) = Some true.
Proof.
  intros Hi Hsec Hnone. rewrite Sectioned_reconcile_lookup, Hi. simpl.
  rewrite (settled_section results doc i e) by done.
  rewrite hidden_with_display. unfold section_display, hidden_below.
  by rewrite Hnone.
Qed.

Lemma X13_sections_without_items_are_hidden_witness :
  (hidden <$> Sectioned.reconcile ["walk"]%string plain_page !! 4) = Some true
  /\ (dataset_name <$> plain_page !! 5) = Some (Some "walk"%string).
Proof.
  split; [|reflexivity].
  apply (X13_sections_without_items_are_hidden ["walk"]%string plain_page 4
           {| classList := ["section"%string]; dataset_name := None;
              style_display := None; descendants := 1; quirks := true |});
    reflexivity.
Defined.

(** X14: matching more names never hides anything: when every name of [A] is
    in [B], a namespace item the flat loop shows for [A] it shows for [B],
    and a section the sectioned loops show for [A] they show for [B]. *)
Theorem X14_more_matches_show_more
    (A B : list string) (doc : Document) (j : nat) :
  (forall n, n ∈ A -> n ∈ B) ->
  (has_class_at doc "namespaceItem" j = true ->
   (visible <$> Flat.reconcile A doc !! j) = Some true ->
   (visible <$> Flat.reconcile B doc !! j) = Some true)
  /\ (has_class_at doc "section" j = true ->
      (visible <$> Sectioned.reconcile A doc !! j) = Some true ->
      (visible <$> Sectioned.reconcile B doc !! j) = Some true).
Proof.
  intros Hsub. split; intros Hc.
  - rewrite !Flat_reconcile_lookup, Hc.
    destruct (doc !! j) as [e|]; [|done]. simpl.
    rewrite !visible_show_or_hide. intros [= HA]. f_equal.
    by apply (includes_more_names A B).
  - rewrite !Sectioned_reconcile_lookup.
    destruct (doc !! j) as [e|] eqn:Hj; [|done]. simpl.
    rewrite (has_class_at_Some _ _ _ _ Hj) in Hc.
    rewrite !(settled_section _ doc j e) by done.
    unfold visible. rewrite !hidden_with_display.
    unfold section_display, hidden_below.
    set (items := getElementsByClassName_in doc j "namespaceItem").
    destruct (length (List.filter
                (fun i => negb (includes A (name_at doc i))) items)
              =? length items) eqn:HcountA; [done|].
    intros _.
    destruct (length (List.filter
                (fun i => negb (includes B (name_at doc i))) items)
              =? length items) eqn:HcountB; [|reflexivity].
    apply Nat.eqb_neq in HcountA. apply Nat.eqb_eq in HcountB.
    destruct HcountA. apply filter_length_all. intros i Hi.
    pose proof (proj1 (filter_length_all _ _) HcountB i Hi) as HB.
    simpl in HB. destruct (includes A (name_at doc i)) eqn:HAi; [|done].
    by rewrite (includes_more_names A B _ Hsub HAi) in HB.
Qed.

Lemma X14_more_matches_show_more_witness :
  (visible <$> Flat.reconcile ["walk"; "copy"]%string sample_page !! 1)
  = Some true
  /\ (visible <$> Sectioned.reconcile ["walk"; "copy"]%string sample_page !! 0)
     = Some true.
Proof.
  destruct (X14_more_matches_show_more ["walk"]%string ["walk"; "copy"]%string
              sample_page 1) as [Hitem _].
  { intros n Hn. rewrite elem_of_cons, elem_of_nil in Hn.
    rewrite elem_of_cons. tauto. }
  destruct (X14_more_matches_show_more ["walk"]%string ["walk"; "copy"]%string
              sample_page 0) as [_ Hsection].
  { intros n Hn. rewrite elem_of_cons, elem_of_nil in Hn.
    rewrite elem_of_cons. tauto. }
  split; [apply Hitem | apply Hsection]; reflexivity.
Defined.

(** ** More about the widget *)

Section Flat_more.
Variable search : Orama -> string -> list SearchRecord.
Variable props : LocalSymbolSearchProps.

(** A published document stays published. *)
Lemma Flat_handle_document (st : State) (ev : Flat.Event) :
  is_Some (parsedSearchContent st) ->
  is_Some (parsedSearchContent (Flat.handle search props st ev)).
Proof.
  intros Hdoc. destruct ev as [value|key|inside]; simpl; [| |done].
  - unfold Flat.onInput. destruct (truthy value); [|done].
    destruct (db st); [|done]. simpl.
    destruct (parsedSearchContent st); simpl; by eauto.
  - by destruct (Flat_onKeyUp_frame props key st) as (_ & _ & -> & _).
Qed.

Lemma Flat_run_document (evs : list Flat.Event) (st : State) :
  is_Some (parsedSearchContent st) ->
  is_Some (parsedSearchContent (Flat.run search props evs st)).
Proof.
  unfold Flat.run. revert st.
  induction evs as [|ev evs IH]; intros st Hdoc; [done|].
  cbn [foldl]. by apply IH, Flat_handle_document.
Qed.

(** With no result recorded, no handler records one or navigates. *)
Lemma Flat_handle_stays (st : State) (ev : Flat.Event) :
  results st = [] -> location_href st = None ->
  results (Flat.handle search props st ev) = []
  /\ location_href (Flat.handle search props st ev) = None.
Proof.
  intros Hr Hl. destruct ev as [value|key|inside]; simpl; [| |done].
  - unfold Flat.onInput. destruct (truthy value); [|done].
    destruct (db st); [|done]. simpl.
    by destruct (parsedSearchContent st).
  - unfold Flat.onKeyUp. repeat case_bool_decide; simpl; try done.
    destruct (_ <? _)%Z; [|done]. by rewrite Hr.
Qed.

Lemma Flat_run_stays (evs : list Flat.Event) (st : State) :
  results st = [] -> location_href st = None ->
  results (Flat.run search props evs st) = []
  /\ location_href (Flat.run search props evs st) = None.
Proof.
  unfold Flat.run. revert st.
  induction evs as [|ev evs IH]; intros st Hr Hl; [done|].
  cbn [foldl]. destruct (Flat_handle_stays st ev Hr Hl). by apply IH.
Qed.

(** The document after a run, from a state with a database and a
    document. *)
Lemma Flat_run_last_query (evs : list Flat.Event) :
  forall (st : State) (oramaDb : Orama) (doc : Document),
    db st = Some oramaDb ->
    parsedSearchContent st = Some doc ->
    parsedSearchContent (Flat.run search props evs st)
    = Some match Flat_last_query evs with
           | Some value => Flat.reconcile (map name (search oramaDb value)) doc
           | None => doc
           end.
Proof.
  unfold Flat.run.
  induction evs as [|ev evs IH]; intros st oramaDb doc Hdb Hdoc; [done|].
  cbn [foldl Flat_last_query].
  destruct ev as [value|key|inside]; simpl Flat.handle.
  - unfold Flat.onInput. rewrite Hdb. destruct (truthy value) eqn:Hv.
    + simpl. rewrite Hdoc.
      rewrite (IH _ oramaDb
                 (Flat.reconcile (map name (search oramaDb value)) doc))
        by done.
      destruct (Flat_last_query evs); [|done].
      by rewrite Flat_reconcile_absorbs.
    + rewrite (IH _ oramaDb doc) by done. by destruct (Flat_last_query evs).
  - destruct (Flat_onKeyUp_frame props key st) as (Hd & _ & Hp & _).
    rewrite (IH _ oramaDb doc) by congruence.
    by destruct (Flat_last_query evs).
  - rewrite (IH _ oramaDb doc) by done. by destruct (Flat_last_query evs).
Qed.

(** With no result recorded the selection is -1 or 0. *)
Lemma Flat_handle_selection (st : State) (ev : Flat.Event) :
  results st = [] ->
  (selectionIdx st = -1 \/ selectionIdx st = 0)%Z ->
  (selectionIdx (Flat.handle search props st ev) = -1
   \/ selectionIdx (Flat.handle search props st ev) = 0)%Z.
Proof.
  intros Hr Hs. destruct ev as [value|key|inside]; simpl; [| |done].
  - unfold Flat.onInput. destruct (truthy value); [|done].
    destruct (db st); [|done]. simpl.
    destruct (parsedSearchContent st); simpl; by left.
  - unfold Flat.onKeyUp. repeat case_bool_decide; simpl; try done.
    + rewrite Hr. simpl. lia.
    + lia.
    + destruct (_ <? _)%Z; [|done]. by destruct (_ !! _).
Qed.

Lemma Flat_run_selection (evs : list Flat.Event) (st : State) :
  results st = [] -> location_href st = None ->
  (selectionIdx st = -1 \/ selectionIdx st = 0)%Z ->
  (selectionIdx (Flat.run search props evs st) = -1
   \/ selectionIdx (Flat.run search props evs st) = 0)%Z.
Proof.
  unfold Flat.run. revert st.
  induction evs as [|ev evs IH]; intros st Hr Hl Hs; [done|].
  cbn [foldl]. destruct (Flat_handle_stays st ev Hr Hl).
  apply IH; [done | done | by apply Flat_handle_selection].
Qed.

(** The flag of the flat variant is written by clicks only. *)
Lemma Flat_run_last_click (evs : list Flat.Event) :
  forall st : State,
    showResults (Flat.run search props evs st)
    = match Flat_last_click evs with
      | Some inside => inside
      | None => showResults st
      end.
Proof.
  unfold Flat.run. induction evs as [|ev evs IH]; intros st; [done|].
  cbn [foldl Flat_last_click]. rewrite IH.
  destruct (Flat_last_click evs); [done|].
  destruct ev as [value|key|inside]; simpl; [| |done].
  - unfold Flat.onInput. destruct (truthy value); [|done].
    destruct (db st); [|done]. simpl.
    by destruct (parsedSearchContent st).
  - unfold Flat.onKeyUp. repeat case_bool_decide; simpl; try done.
    destruct (_ <? _)%Z; [|done]. by destruct (_ !! _).
Qed.

End Flat_more.

Section Sectioned_more.
Variable search : Orama -> string -> list SearchRecord.

Lemma Sectioned_handle_document (st : State) (ev : Sectioned.Event) :
  is_Some (parsedSearchContent st) ->
  is_Some (parsedSearchContent (Sectioned.handle search st ev)).
Proof.
  intros Hdoc. destruct ev as [value|key]; simpl; [|done].
  unfold Sectioned.onInput. destruct (truthy value); [|done].
  destruct (db st); [|done]. simpl.
  destruct (parsedSearchContent st); simpl; by eauto.
Qed.

Lemma Sectioned_run_document (evs : list Sectioned.Event) (st : State) :
  is_Some (parsedSearchContent st) ->
  is_Some (parsedSearchContent (Sectioned.run search evs st)).
Proof.
  unfold Sectioned.run. revert st.
  induction evs as [|ev evs IH]; intros st Hdoc; [done|].
  cbn [foldl]. by apply IH, Sectioned_handle_document.
Qed.

(** The document, the flag and the counter after a run, from a state with a
    database and a document. *)
Lemma Sectioned_run_last_query (evs : list Sectioned.Event) :
  forall (st : State) (oramaDb : Orama) (doc : Document),
    db st = Some oramaDb ->
    parsedSearchContent st = Some doc ->
    let st' := Sectioned.run search evs st in
    parsedSearchContent st'
    = Some match Sectioned_last_query evs with
           | Some value =>
               Sectioned.reconcile (map name (search oramaDb value)) doc
           | None => doc
           end
    /\ showResults st'
       = match Sectioned_last_input evs with
         | Some value => truthy value
         | None => showResults st
         end
    /\ searchCounter st' = searchCounter st + Sectioned_query_count evs.
Proof.
  unfold Sectioned.run.
  induction evs as [|ev evs IH]; intros st oramaDb doc Hdb Hdoc.
  - simpl. by rewrite Nat.add_0_r.
  - cbn [foldl Sectioned_last_query Sectioned_last_input Sectioned_query_count].
    destruct ev as [value|key]; simpl Sectioned.handle.
    + unfold Sectioned.onInput. rewrite Hdb. destruct (truthy value) eqn:Hv.
      * simpl. rewrite Hdoc.
        destruct (IH (set_showResults true
                        (set_searchCounter (searchCounter st + 1)
                           (set_parsedSearchContent
                              (Some (Sectioned.reconcile
                                       (map name (search oramaDb value)) doc))
                              (set_selectionIdx (-1)%Z st))))
                     oramaDb
                     (Sectioned.reconcile (map name (search oramaDb value)) doc))
          as (H1 & H2 & H3); [done..|].
        cbv zeta in H1, H2, H3. rewrite H1, H2, H3. simpl. repeat split.
        -- destruct (Sectioned_last_query evs); [|done].
           by rewrite Sectioned_reconcile_absorbs.
        -- destruct (Sectioned_last_input evs); [done | by rewrite Hv].
        -- lia.
      * destruct (IH (set_showResults false st) oramaDb doc)
          as (H1 & H2 & H3); [done..|].
        cbv zeta in H1, H2, H3. rewrite H1, H2, H3. simpl. repeat split.
        -- by destruct (Sectioned_last_query evs).
        -- destruct (Sectioned_last_input evs); [done | by rewrite Hv].
    + destruct (IH st oramaDb doc) as (H1 & H2 & H3); [done..|].
      cbv zeta in H1, H2, H3. rewrite H1, H2, H3. repeat split.
      * by destruct (Sectioned_last_query evs).
      * by destruct (Sectioned_last_input evs).
Qed.

(** Without a database the flag is never raised. *)
Lemma Sectioned_run_not_ready (evs : list Sectioned.Event) (st : State) :
  db st = None -> showResults st = false ->
  showResults (Sectioned.run search evs st) = false.
Proof.
  unfold Sectioned.run. revert st.
  induction evs as [|ev evs IH]; intros st Hdb Hshow; [done|].
  cbn [foldl]. apply IH.
  - destruct (Sectioned_handle_frame search st ev) as (-> & _). done.
  - destruct ev as [value|key]; simpl; [|done].
    unfold Sectioned.onInput. rewrite Hdb. by destruct (truthy value).
Qed.

End Sectioned_more.

(** X15: in every state the widget reaches, with the effect resolving at any
    point of the event sequence and whatever the response, a database is
    published only when a document is: a query never runs into a missing
    document.  Both variants. *)
Theorem X15_a_database_comes_with_a_document
    (api_get : Request -> APIResponse) (parseFromString : string -> Document)
    (search : Orama -> string -> list SearchRecord)
    (props : LocalSymbolSearchProps) :
  (forall evs1 evs2 : list Flat.Event,
      let st1 := Flat.run search props evs1 Flat.initial in
      let st2 := Flat.run search props evs2
                   (mount api_get parseFromString props st1) in
      db st1 = None
      /\ (db st2 = None \/ is_Some (parsedSearchContent st2)))
  /\ (forall evs1 evs2 : list Sectioned.Event,
         let st1 := Sectioned.run search evs1 Sectioned.initial in
         let st2 := Sectioned.run search evs2
                      (mount api_get parseFromString props st1) in
         db st1 = None
         /\ (db st2 = None \/ is_Some (parsedSearchContent st2))).
Proof.
  split; intros evs1 evs2; cbv zeta.
  - destruct (Flat_run_frame search props evs1 Flat.initial)
      as (H1 & _ & _ & _ & H5).
    split; [done|].
    set (st1 := Flat.run search props evs1 Flat.initial) in *.
    destruct (Flat_run_frame search props evs2
                (mount api_get parseFromString props st1))
      as (I1 & _ & _ & _ & I5).
    destruct (mount_published api_get parseFromString props st1)
      as [[Hd Hp] | [Hd Hp]].
    + left. rewrite I1, Hd. done.
    + right. by apply Flat_run_document.
  - destruct (Sectioned_run_frame search evs1 Sectioned.initial)
      as (H1 & _ & _ & H5).
    split; [done|].
    set (st1 := Sectioned.run search evs1 Sectioned.initial) in *.
    destruct (Sectioned_run_frame search evs2
                (mount api_get parseFromString props st1))
      as (I1 & _ & _ & I5).
    destruct (mount_published api_get parseFromString props st1)
      as [[Hd Hp] | [Hd Hp]].
    + left. rewrite I1, Hd. done.
    + right. by apply Sectioned_run_document.
Qed.

(** X16: no input, key or click event changes the database, sends a request
    or logs an error: the index is what the effect made it, and the server is
    asked at most once, by the effect.  Both variants. *)
Theorem X16_events_leave_the_index_alone
    (search : Orama -> string -> list SearchRecord)
    (props : LocalSymbolSearchProps) (st : State) :
  (forall evs : list Flat.Event,
      let st' := Flat.run search props evs st in
      db st' = db st /\ requests st' = requests st
      /\ console_error st' = console_error st)
  /\ (forall evs : list Sectioned.Event,
         let st' := Sectioned.run search evs st in
         db st' = db st /\ requests st' = requests st
         /\ console_error st' = console_error st).
Proof.
  split; intros evs; cbv zeta.
  - by destruct (Flat_run_frame search props evs st) as (-> & -> & -> & _).
  - by destruct (Sectioned_run_frame search evs st) as (-> & -> & -> & _).
Qed.

(** X17: in the flat variant the result list stays empty in every state the
    widget reaches, because [onInput] stores the hits in a local array that
    shadows the signal; so the selection is -1 or 0, no key press ever
    prevents the default action, and the widget never navigates. *)
Theorem X17_flat_result_list_stays_empty
    (api_get : Request -> APIResponse) (parseFromString : string -> Document)
    (search : Orama -> string -> list SearchRecord)
    (props : LocalSymbolSearchProps)
    (evs1 evs2 : list Flat.Event) (key : string) :
  let st := Flat.run search props evs2
              (mount api_get parseFromString props
                 (Flat.run search props evs1 Flat.initial)) in
  results st = [] /\ location_href st = None
  /\ (selectionIdx st = -1 \/ selectionIdx st = 0)%Z
  /\ snd (Flat.onKeyUp props key st) = false
  /\ location_href (fst (Flat.onKeyUp props key st)) = None.
Proof.
  cbv zeta.
  destruct (Flat_run_stays search props evs1 Flat.initial) as [Hr1 Hl1];
    [done..|].
  pose proof (Flat_run_selection search props evs1 Flat.initial
                eq_refl eq_refl (or_introl eq_refl)) as Hs1.
  set (st1 := Flat.run search props evs1 Flat.initial) in *.
  assert (Hm : results (mount api_get parseFromString props st1) = []
               /\ location_href (mount api_get parseFromString props st1)
                  = None
               /\ selectionIdx (mount api_get parseFromString props st1)
                  = selectionIdx st1).
  { unfold mount. destruct (negb _); [|done]. by destruct (api_get _). }
  destruct Hm as (Hrm & Hlm & Hsm).
  destruct (Flat_run_stays search props evs2 _ Hrm Hlm) as [Hr2 Hl2].
  pose proof (Flat_run_selection search props evs2 _ Hrm Hlm) as Hs2.
  rewrite Hsm in Hs2. specialize (Hs2 Hs1).
  repeat split; try done.
  - unfold Flat.onKeyUp. repeat case_bool_decide; simpl; try done.
    destruct (_ <? _)%Z; [|done]. by rewrite Hr2.
  - unfold Flat.onKeyUp. repeat case_bool_decide; simpl; try done.
    destruct (_ <? _)%Z; [|done]. by rewrite Hr2.
Qed.

(** X18: Enter with a selection that has no record, below 0 or at or past
    the end of the result list, changes nothing and does not prevent the
    default action; and no key other than Enter ever prevents it or
    navigates. *)
Theorem X18_enter_needs_a_record
    (props : LocalSymbolSearchProps) (st : State) :
  ((selectionIdx st < 0 \/ Z.of_nat (length (results st)) <= selectionIdx st)%Z ->
   Flat.onKeyUp props "Enter" st = (st, false))
  /\ (forall key : string,
         key <> "Enter"%string ->
         snd (Flat.onKeyUp props key st) = false
         /\ location_href (fst (Flat.onKeyUp props key st)) = location_href st
         /\ results (fst (Flat.onKeyUp props key st)) = results st).
Proof.
  split.
  - intros Hout. rewrite Flat_onKeyUp_Enter.
    destruct (_ <? _)%Z eqn:Hlt; [|done].
    apply Z.ltb_lt in Hlt.
    rewrite (lookup_ge_None_2 (results st)); [done | lia].
  - intros key Hkey. unfold Flat.onKeyUp.
    repeat case_bool_decide; simpl; done.
Qed.

Lemma X18_enter_needs_a_record_witness :
  let st := fst (Flat.onKeyUp sample_props "ArrowUp" Flat.initial) in
  selectionIdx st = 0%Z /\ results st = []
  /\ Flat.onKeyUp sample_props "Enter" st = (st, false).
Proof.
  split; [reflexivity | split; [reflexivity|]].
  apply (X18_enter_needs_a_record sample_props
           (fst (Flat.onKeyUp sample_props "ArrowUp" Flat.initial))).
  right. simpl. lia.
Defined.

(** X19: in the flat variant, once a database and a document are published,
    the document after any sequence of events is the published one
    reconciled with the hits of the last non-empty query alone, and the
    published one itself when there was none; an empty query, a key or a
    click in between or afterwards changes nothing of it. *)
Theorem X19_flat_document_follows_the_last_query
    (search : Orama -> string -> list SearchRecord)
    (props : LocalSymbolSearchProps) (evs : list Flat.Event)
    (st : State) (oramaDb : Orama) (doc : Document) :
  db st = Some oramaDb ->
  parsedSearchContent st = Some doc ->
  parsedSearchContent (Flat.run search props evs st)
  = Some match Flat_last_query evs with
         | Some value => Flat.reconcile (map name (search oramaDb value)) doc
         | None => doc
         end.
Proof. apply Flat_run_last_query. Qed.

Lemma X19_flat_document_follows_the_last_query_witness :
  parsedSearchContent
    (Flat.run finds_walk content_props
       [Flat.Input "copy"; Flat.KeyUp "ArrowDown"; Flat.Input "wal";
        Flat.Input ""; Flat.Click false]
       (mount failing_api parse_sample content_props Flat.initial))
  = Some (Flat.reconcile ["walk"]%string sample_page).
Proof.
  apply (X19_flat_document_follows_the_last_query finds_walk content_props
           [Flat.Input "copy"; Flat.KeyUp "ArrowDown"; Flat.Input "wal";
            Flat.Input ""; Flat.Click false]
           (mount failing_api parse_sample content_props Flat.initial)
           {| documents := [Some "walk"; Some "copy"; Some "loose"]%string |}
           sample_page);
    reflexivity.
Defined.

(** X20: in the sectioned variant, once a database and a document are
    published, after any sequence of events the document is the published
    one reconciled with the hits of the last non-empty query alone, the
    results are flagged as shown exactly when the last input was non-empty,
    and the search counter has grown by the number of non-empty inputs. *)
Theorem X20_sectioned_state_follows_the_inputs
    (search : Orama -> string -> list SearchRecord)
    (evs : list Sectioned.Event)
    (st : State) (oramaDb : Orama) (doc : Document) :
  db st = Some oramaDb ->
  parsedSearchContent st = Some doc ->
  let st' := Sectioned.run search evs st in
  parsedSearchContent st'
  = Some match Sectioned_last_query evs with
         | Some value =>
             Sectioned.reconcile (map name (search oramaDb value)) doc
         | None => doc
         end
  /\ showResults st'
     = match Sectioned_last_input evs with
       | Some value => truthy value
       | None => showResults st
       end
  /\ searchCounter st' = searchCounter st + Sectioned_query_count evs.
Proof. apply Sectioned_run_last_query. Qed.

Lemma X20_sectioned_state_follows_the_inputs_witness :
  let st' := Sectioned.run finds_walk
               [Sectioned.Input "copy"; Sectioned.Input "wal";
                Sectioned.KeyUp "Enter"; Sectioned.Input ""]
               (mount failing_api parse_sample content_props
                  Sectioned.initial) in
  parsedSearchContent st'
  = Some (Sectioned.reconcile ["walk"]%string sample_page)
  /\ showResults st' = false /\ searchCounter st' = 2.
Proof.
  apply (X20_sectioned_state_follows_the_inputs finds_walk
           [Sectioned.Input "copy"; Sectioned.Input "wal";
            Sectioned.KeyUp "Enter"; Sectioned.Input ""]
           (mount failing_api parse_sample content_props Sectioned.initial)
           {| documents := [Some "walk"; Some "copy"; Some "loose"]%string |}
           sample_page);
    reflexivity.
Defined.

(** X26: in the flat variant the results are flagged as shown or not by
    clicks alone: after any sequence of events the flag says whether the last
    click landed inside the widget, and is as before when there was no
    click; typing and keys never hide or show the results. *)
Theorem X26_flat_flag_follows_the_last_click
    (search : Orama -> string -> list SearchRecord)
    (props : LocalSymbolSearchProps) (evs : list Flat.Event) (st : State) :
  showResults (Flat.run search props evs st)
  = match Flat_last_click evs with
    | Some inside => inside
    | None => showResults st
    end.
Proof. apply Flat_run_last_click. Qed.

(** ** The panels *)

Lemma elem_of_classList_add (c x : string) (l : list string) :
  x ∈ classList_add c l <-> x = c \/ x ∈ l.
Proof.
  unfold classList_add. case_bool_decide as Hc.
  - split; [by right | by intros [->|]].
  - rewrite elem_of_app, elem_of_cons, elem_of_nil. tauto.
Qed.

Lemma elem_of_classList_remove (c x : string) (l : list string) :
  x ∈ classList_remove c l <-> x <> c /\ x ∈ l.
Proof.
  unfold classList_remove. rewrite !list_elem_of_In, filter_In.
  rewrite negb_true_iff, bool_decide_eq_false. tauto.
Qed.

Lemma classList_remove_twice (c : string) (l : list string) :
  classList_remove c (classList_remove c l) = classList_remove c l.
Proof.
  unfold classList_remove. induction l as [|x l IH]; [done|].
  simpl. case_bool_decide; simpl; [done|].
  rewrite bool_decide_eq_false_2 by done. simpl. by rewrite IH.
Qed.

Lemma classList_add_twice (c : string) (l : list string) :
  classList_add c (classList_add c l) = classList_add c l.
Proof.
  unfold classList_add at 1. rewrite bool_decide_eq_true_2; [done|].
  apply elem_of_classList_add. by left.
Qed.

Lemma classList_remove_add (c : string) (l : list string) :
  classList_remove c (classList_add c l) = classList_remove c l.
Proof.
  unfold classList_add. case_bool_decide; [done|].
  unfold classList_remove. rewrite List.filter_app. simpl.
  rewrite bool_decide_eq_true_2 by done. simpl. by rewrite app_nil_r.
Qed.


(** X21: in the browser, after every render exactly one of the two panels
    carries the class [hidden]; the results panel is the one shown exactly
    when the results are flagged as shown and there is non-empty content to
    show, and it then holds that content. *)
Theorem X21_render_shows_one_panel
    (innerHTML : Document -> string) (props : LocalSymbolSearchProps)
    (st : State) (page : Page) :
  let page' := render true innerHTML props st page in
  let hidden_class := "hidden"%string in
  (hidden_class ∈ docMain page' <-> ~ hidden_class ∈ docSearchResults page')
  /\ (~ hidden_class ∈ docSearchResults page'
      <-> showResults st = true
          /\ truthy_opt (shown_html innerHTML props st) = true)
  /\ (hidden_class ∈ docSearchResults page'
      \/ (shown_html innerHTML props st
          = Some (docSearchResults_innerHTML page')
          /\ nonempty (docSearchResults_innerHTML page') = true)).
Proof.
  cbv zeta. unfold render.
  destruct (showResults st); [destruct (truthy_opt _) eqn:Hv|]; simpl;
    rewrite ?elem_of_classList_add, ?elem_of_classList_remove.
  - split; [|split].
    + split; [intros _ [? _]; done | by left].
    + split; [done | intros _ [? _]; done].
    + right. destruct (shown_html innerHTML props st); [done | done].
  - split; [|split].
    + split; [intros [? _]; done | intros H; destruct H; by left].
    + split; [intros H; destruct H; by left | intros [_ ?]; done].
    + left. by left.
  - split; [|split].
    + split; [intros [? _]; done | intros H; destruct H; by left].
    + split; [intros H; destruct H; by left | intros [? _]; done].
    + left. by left.
Qed.

(** X22: a render changes nothing of the page but the class [hidden] of the
    two panels and the content of the results panel: their other classes
    stay, in their order; rendering twice in the same state is rendering
    once; and outside the browser the page is not touched. *)
Theorem X22_render_is_stable
    (IS_BROWSER : bool) (innerHTML : Document -> string)
    (props : LocalSymbolSearchProps) (st : State) (page : Page) :
  let page' := render IS_BROWSER innerHTML props st page in
  classList_remove "hidden" (docMain page')
  = classList_remove "hidden" (docMain page)
  /\ classList_remove "hidden" (docSearchResults page')
     = classList_remove "hidden" (docSearchResults page)
  /\ render IS_BROWSER innerHTML props st page' = page'
  /\ render false innerHTML props st page = page.
Proof.
  cbv zeta. unfold render.
  destruct IS_BROWSER; [|done].
  destruct (showResults st); [destruct (truthy_opt _)|]; simpl;
    by rewrite ?classList_remove_add, ?classList_remove_twice,
               ?classList_add_twice.
Qed.

(** X23: in the sectioned variant, as long as no database is published the
    main panel stays: whatever is typed, before the effect resolves or after
    a failed request, every render shows the main panel, hides the results
    panel and leaves its content alone. *)
Theorem X23_main_panel_until_ready
    (search : Orama -> string -> list SearchRecord)
    (innerHTML : Document -> string) (props : LocalSymbolSearchProps)
    (evs : list Sectioned.Event) (st : State) (page : Page) :
  db st = None ->
  showResults st = false ->
  let page' := render true innerHTML props (Sectioned.run search evs st) page in
  ~ "hidden"%string ∈ docMain page'
  /\ "hidden"%string ∈ docSearchResults page'
  /\ docSearchResults_innerHTML page' = docSearchResults_innerHTML page.
Proof.
  intros Hdb Hshow. cbv zeta. unfold render.
  rewrite (Sectioned_run_not_ready search evs st Hdb Hshow). simpl.
  rewrite elem_of_classList_add, elem_of_classList_remove.
  split; [by intros [? _] | split; [by left | done]].
Qed.

Lemma X23_main_panel_until_ready_witness :
  let page' :=
    render true styles_html content_props
      (Sectioned.run finds_walk [Sectioned.Input "wal"; Sectioned.Input "walk"]
         Sectioned.initial)
      sample_host in
  ~ "hidden"%string ∈ docMain page'
  /\ "hidden"%string ∈ docSearchResults page'
  /\ docSearchResults_innerHTML page' = docSearchResults_innerHTML sample_host.
Proof.
  apply (X23_main_panel_until_ready finds_walk styles_html content_props
           [Sectioned.Input "wal"; Sectioned.Input "walk"]
           Sectioned.initial sample_host);
    reflexivity.
Defined.

(** X24: in the sectioned variant an empty input brings the main panel back,
    from any state: the render that follows shows the main panel and hides
    the results panel. *)
Theorem X24_empty_input_brings_the_main_panel_back
    (search : Orama -> string -> list SearchRecord)
    (innerHTML : Document -> string) (props : LocalSymbolSearchProps)
    (value : string) (st : State) (page : Page) :
  truthy value = false ->
  let page' := render true innerHTML props
                 (Sectioned.onInput search value st) page in
  ~ "hidden"%string ∈ docMain page'
  /\ "hidden"%string ∈ docSearchResults page'.
Proof.
  intros Hv. cbv zeta. unfold render, Sectioned.onInput. rewrite Hv. simpl.
  rewrite elem_of_classList_add, elem_of_classList_remove.
  split; [by intros [? _] | by left].
Qed.

Lemma X24_empty_input_brings_the_main_panel_back_witness :
  let shown :=
    render true styles_html content_props
      (Sectioned.onInput finds_walk "wal"
         (mount failing_api parse_sample content_props Sectioned.initial))
      sample_host in
  let back :=
    render true styles_html content_props
      (Sectioned.onInput finds_walk ""
         (Sectioned.onInput finds_walk "wal"
            (mount failing_api parse_sample content_props Sectioned.initial)))
      shown in
  docMain shown = ["prose"; "hidden"]%string
  /\ docSearchResults shown = ["prose"]%string
  /\ ~ "hidden"%string ∈ docMain back
  /\ "hidden"%string ∈ docSearchResults back.
Proof.
  split; [reflexivity | split; [reflexivity|]].
  apply (X24_empty_input_brings_the_main_panel_back finds_walk styles_html
           content_props "").
  reflexivity.
Defined.


